(** * The bank ledger of [EX/ex11_bank/bank.py]

    A shallow embedding of the classes [Person], [Bank], [Transaction] and
    [Account] and of their methods, followed by the properties of the ledger.

    Modelling decisions.
    - Python objects live in a store; the identity of an object is its index
      in the store, and [==], [!=] and [in] on persons, banks and accounts
      (none of the classes defines [__eq__]) compare these indices.
    - [Transaction] objects are never mutated after construction and never
      compared, so the lists hold them by value.
    - Amounts and balances are Python integers ([int]), embedded in [Z]: the
      theorems are about the code run on integers, where [+], [-] and the
      comparisons are exact.  The annotations of the source also admit
      [float]; the rounding of floats is not modelled, and a statement that
      relates the results of several additions or subtractions is marked
      as being about integers.  A date is the ordinal of a
      [datetime.date], also in [Z].
    - [datetime.date.today()] and [random.randint] read the environment:
      a method that calls them takes the value read as an extra argument.
    - A raised exception leaves the store as it is at the [raise]
      statement, and that store is part of the result. *)

From stdpp Require Import base numbers list strings pretty.
From Stdlib Require Import ZArith Lia.

Open Scope Z_scope.

(** ** Object layouts *)

Module Person.
Record t : Type := mk {
  first_name : string;
  last_name : string;
  _age : Z;
  bank_account : option nat
}.
End Person.

Module Transaction.
Record t : Type := mk {
  amount : Z;
  date : Z;
  sender_account : nat;
  receiver_account : nat;
  is_from_atm : bool
}.
End Transaction.

Module Account.
Record t : Type := mk {
  _balance : Z;
  person : nat;
  bank : nat;
  transactions : list Transaction.t;
  number : string
}.
End Account.

Module Bank.
Record t : Type := mk {
  name : string;
  customers : list nat;
  transactions : list Transaction.t
}.
End Bank.

(** ** The store and the exceptions *)

Record Heap : Type := mkHeap {
  persons : list Person.t;
  banks : list Bank.t;
  accounts : list Account.t
}.

Definition empty_heap : Heap := mkHeap [] [] [].

Inductive exn : Type :=
| PersonError
| TransactionError.

(** The result of running a method: a value, or an exception, both with the
    store they leave behind.  [NoSuchObject] is the answer to a reference
    that denotes no object of the store; a Python reference always denotes a
    live object, so a run of the program never produces it. *)
Inductive result (A : Type) : Type :=
| Ret (a : A) (h : Heap)
| Raise (e : exn) (h : Heap)
| NoSuchObject.

Arguments Ret {A} a h.
Arguments Raise {A} e h.
Arguments NoSuchObject {A}.

Definition M (A : Type) : Type := Heap -> result A.

Definition ret {A} (a : A) : M A := fun h => Ret a h.

Definition raise {A} (e : exn) : M A := fun h => Raise e h.

Definition bind {A B} (c : M A) (k : A -> M B) : M B :=
  fun h =>
    match c h with
    | Ret a h' => k a h'
    | Raise e h' => Raise e h'
    | NoSuchObject => NoSuchObject
    end.

Notation "x <- c1 ;; c2" := (bind c1 (fun x => c2))
  (at level 100, c1 at next level, right associativity).
Notation "c1 ;; c2" := (bind c1 (fun _ => c2))
  (at level 100, right associativity).

(** *** Reading and writing objects *)

Definition get_person (p : nat) : M Person.t :=
  fun h => match persons h !! p with
           | Some x => Ret x h
           | None => NoSuchObject
           end.

Definition get_bank (b : nat) : M Bank.t :=
  fun h => match banks h !! b with
           | Some x => Ret x h
           | None => NoSuchObject
           end.

Definition get_account (a : nat) : M Account.t :=
  fun h => match accounts h !! a with
           | Some x => Ret x h
           | None => NoSuchObject
           end.

Definition put_person (p : nat) (x : Person.t) : M unit :=
  fun h => Ret tt (mkHeap (<[p := x]> (persons h)) (banks h) (accounts h)).

Definition put_bank (b : nat) (x : Bank.t) : M unit :=
  fun h => Ret tt (mkHeap (persons h) (<[b := x]> (banks h)) (accounts h)).

Definition put_account (a : nat) (x : Account.t) : M unit :=
  fun h => Ret tt (mkHeap (persons h) (banks h) (<[a := x]> (accounts h))).

Definition new_person (x : Person.t) : M nat :=
  fun h => Ret (length (persons h))
               (mkHeap (persons h ++ [x]) (banks h) (accounts h)).

Definition new_bank (x : Bank.t) : M nat :=
  fun h => Ret (length (banks h))
               (mkHeap (persons h) (banks h ++ [x]) (accounts h)).

Definition new_account (x : Account.t) : M nat :=
  fun h => Ret (length (accounts h))
               (mkHeap (persons h) (banks h) (accounts h ++ [x])).

(** Field assignments. *)

Definition with_age (v : Z) (x : Person.t) : Person.t :=
  Person.mk (Person.first_name x) (Person.last_name x) v (Person.bank_account x).

Definition with_bank_account (a : option nat) (x : Person.t) : Person.t :=
  Person.mk (Person.first_name x) (Person.last_name x) (Person._age x) a.

Definition with_balance (v : Z) (x : Account.t) : Account.t :=
  Account.mk v (Account.person x) (Account.bank x) (Account.transactions x)
             (Account.number x).

Definition with_transactions (l : list Transaction.t) (x : Account.t) : Account.t :=
  Account.mk (Account._balance x) (Account.person x) (Account.bank x) l
             (Account.number x).

Definition with_customers (l : list nat) (x : Bank.t) : Bank.t :=
  Bank.mk (Bank.name x) l (Bank.transactions x).

Definition with_bank_transactions (l : list Transaction.t) (x : Bank.t) : Bank.t :=
  Bank.mk (Bank.name x) (Bank.customers x) l.

(** [self._age = v] *)
Definition set_age (p : nat) (v : Z) : M unit :=
  x <- get_person p ;; put_person p (with_age v x).

(** [person.bank_account = a] *)
Definition set_bank_account (p : nat) (a : option nat) : M unit :=
  x <- get_person p ;; put_person p (with_bank_account a x).

(** [self._balance = v] *)
Definition set_balance (a : nat) (v : Z) : M unit :=
  x <- get_account a ;; put_account a (with_balance v x).

(** [account.transactions.append(t)] *)
Definition account_append (a : nat) (t : Transaction.t) : M unit :=
  x <- get_account a ;;
  put_account a (with_transactions (Account.transactions x ++ [t]) x).

(** [bank.transactions.append(t)] *)
Definition bank_append (b : nat) (t : Transaction.t) : M unit :=
  x <- get_bank b ;;
  put_bank b (with_bank_transactions (Bank.transactions x ++ [t]) x).

(** [bank.customers.append(p)] *)
Definition customers_append (b : nat) (p : nat) : M unit :=
  x <- get_bank b ;;
  put_bank b (with_customers (Bank.customers x ++ [p]) x).

(** ** class Person *)

(** [Person.__init__].  When the constructor raises, the object under
    construction is dropped and the store is as before the call. *)
Definition Person_init (first_name last_name : string) (a : Z) : M nat :=
  if 1 <=? a
  then new_person (Person.mk first_name last_name a None)
  else raise PersonError.

Definition Person_full_name (self : nat) : M string :=
  x <- get_person self ;;
  ret (Person.first_name x +:+ " " +:+ Person.last_name x).

(** The getter of the property [age]. *)
Definition Person_age (self : nat) : M Z :=
  x <- get_person self ;; ret (Person._age x).

(** The setter of the property [age]: the field is assigned first and
    tested afterwards. *)
Definition Person_age_setter (self : nat) (value : Z) : M unit :=
  set_age self value ;;
  x <- get_person self ;;
  if Person._age x <=? 0 then raise PersonError else ret tt.

(** ** class Account *)

(** [Account.__init__]; [rnd] is the value drawn by [random.randint]. *)
Definition Account_init (balance : Z) (person bank : nat) (rnd : Z) : M nat :=
  new_account (Account.mk balance person bank [] ("EE" +:+ pretty rnd)).

Definition Account_balance (self : nat) : M Z :=
  x <- get_account self ;; ret (Account._balance x).

Definition Account_deposit (self : nat) (amount : Z) (is_from_atm : bool)
    (today : Z) : M unit :=
  x <- get_account self ;;
  if amount <=? 0 then raise TransactionError
  else
    set_balance self (Account._balance x + amount) ;;
    if is_from_atm then
      let transaction := Transaction.mk amount today self self is_from_atm in
      account_append self transaction ;;
      bank_append (Account.bank x) transaction
    else ret tt.

Definition Account_withdraw (self : nat) (amount : Z) (is_from_atm : bool)
    (today : Z) : M unit :=
  x <- get_account self ;;
  if (amount <=? 0) || (Account._balance x <? amount)
  then raise TransactionError
  else
    set_balance self (Account._balance x - amount) ;;
    if is_from_atm then
      let transaction := Transaction.mk (- amount) today self self is_from_atm in
      account_append self transaction ;;
      bank_append (Account.bank x) transaction
    else ret tt.

Definition Account_transfer (self : nat) (amount : Z) (receiver_account : nat)
    (today : Z) : M unit :=
  s <- get_account self ;;
  r <- get_account receiver_account ;;
  if ((amount + 5 <=? Account._balance s)
      && negb (Account.person s =? Account.person r)%nat)
     || negb (receiver_account =? self)%nat
  then
    let t := Transaction.mk amount today self receiver_account false in
    (if negb (Account.bank s =? Account.bank r)%nat
     then Account_withdraw self (amount + 5) false today ;;
          bank_append (Account.bank r) t
     else Account_withdraw self amount false today) ;;
    Account_deposit receiver_account amount false today ;;
    account_append receiver_account t ;;
    bank_append (Account.bank s) t ;;
    account_append self t
  else raise TransactionError.

(** The test [from_date <= i.date <= to_date]. *)
Definition in_period (from_date to_date : Z) (i : Transaction.t) : bool :=
  (from_date <=? Transaction.date i) && (Transaction.date i <=? to_date).

Definition Account_account_statement (self : nat) (from_date to_date : Z)
    : M (list Transaction.t) :=
  x <- get_account self ;;
  ret (fold_left
         (fun account_statement_list i =>
            if in_period from_date to_date i
            then account_statement_list ++ [i]
            else account_statement_list)
         (Account.transactions x) []).

(** One round of the loop of [get_debit_turnover]. *)
Definition debit_step (self : nat) (from_date to_date : Z)
    (counter : Z) (i : Transaction.t) : Z :=
  if in_period from_date to_date i then
    if ((0 <? Transaction.amount i) && Transaction.is_from_atm i)
       || ((self =? Transaction.receiver_account i)%nat
           && negb (Transaction.is_from_atm i))
    then counter + Transaction.amount i
    else counter
  else counter.

(** One round of the loop of [get_credit_turnover]. *)
Definition credit_step (self : nat) (from_date to_date : Z)
    (counter : Z) (i : Transaction.t) : Z :=
  if in_period from_date to_date i then
    if (Transaction.amount i <? 0)
       || ((self =? Transaction.sender_account i)%nat
           && negb (Transaction.is_from_atm i))
    then counter - Z.abs (Transaction.amount i)
    else counter
  else counter.

Definition Account_get_debit_turnover (self : nat) (from_date to_date : Z) : M Z :=
  x <- get_account self ;;
  ret (fold_left (debit_step self from_date to_date) (Account.transactions x) 0).

Definition Account_get_credit_turnover (self : nat) (from_date to_date : Z) : M Z :=
  x <- get_account self ;;
  ret (fold_left (credit_step self from_date to_date) (Account.transactions x) 0).

Definition Account_get_net_turnover (self : nat) (from_date to_date : Z) : M Z :=
  d <- Account_get_debit_turnover self from_date to_date ;;
  c <- Account_get_credit_turnover self from_date to_date ;;
  ret (d + c).

(** ** class Bank *)

Definition Bank_init (name : string) : M nat :=
  new_bank (Bank.mk name [] []).

(** [rnd] is the value drawn by [random.randint] in [Account.__init__]. *)
Definition Bank_add_customer (self : nat) (person : nat) (rnd : Z) : M bool :=
  b <- get_bank self ;;
  if negb (bool_decide (person ∈ Bank.customers b)) then
    a <- Account_init 0 person self rnd ;;
    set_bank_account person (Some a) ;;
    customers_append self person ;;
    ret true
  else ret false.

(** [list.remove]: drop the first element equal to [p]. *)
Fixpoint list_remove (p : nat) (l : list nat) : list nat :=
  match l with
  | [] => []
  | i :: l' => if (i =? p)%nat then l' else i :: list_remove p l'
  end.

Definition Bank_remove_customer (self : nat) (person : nat) : M bool :=
  b <- get_bank self ;;
  if bool_decide (person ∈ Bank.customers b) then
    set_bank_account person None ;;
    b' <- get_bank self ;;
    put_bank self (with_customers (list_remove person (Bank.customers b')) b') ;;
    ret true
  else ret false.

(** Unfold the monadic plumbing down to matches on store lookups. *)
Ltac unfold_m :=
  unfold account_append, bank_append, customers_append, set_balance, set_age,
    set_bank_account, get_account, get_bank, get_person, put_account,
    put_bank, put_person, new_account, new_bank, new_person, bind, ret, raise
    in *; simpl in *.

(** ** The stores a transfer leaves behind *)

Definition transfer_tx (self receiver_account : nat) (amount today : Z)
    : Transaction.t :=
  Transaction.mk amount today self receiver_account false.

(** An account after [v] was taken from it and [t] was recorded in it. *)
Definition debited (v : Z) (t : Transaction.t) (x : Account.t) : Account.t :=
  Account.mk (Account._balance x - v) (Account.person x) (Account.bank x)
             (Account.transactions x ++ [t]) (Account.number x).

(** An account after [v] was added to it and [t] was recorded in it. *)
Definition credited (v : Z) (t : Transaction.t) (x : Account.t) : Account.t :=
  Account.mk (Account._balance x + v) (Account.person x) (Account.bank x)
             (Account.transactions x ++ [t]) (Account.number x).

(** A bank after [t] was recorded in it. *)
Definition recorded (t : Transaction.t) (x : Bank.t) : Bank.t :=
  with_bank_transactions (Bank.transactions x ++ [t]) x.

(** Read an account through the updates made so far. *)
Ltac lookup_acc :=
  repeat first
    [ eassumption
    | rewrite list_lookup_insert_ne by done
    | apply list_lookup_insert_eq; rewrite ?length_insert;
      eapply lookup_lt_Some; eassumption ].

(** ** Scenarios

    Stores built by running the methods from the empty store; the examples
    below evaluate the methods on them. *)

Definition heap_of {A} (r : result A) : Heap :=
  match r with
  | Ret _ h | Raise _ h => h
  | NoSuchObject => empty_heap
  end.

(** The date of the scenarios. *)
Definition day : Z := 738000.

(** Two customers of one bank: accounts 0 (balance 100) and 1 (balance 0)
    of bank 0. *)
Definition one_bank : Heap :=
  Eval vm_compute in
  heap_of
    ((b <- Bank_init "Swed" ;;
      p1 <- Person_init "Anna" "Tamm" 30 ;;
      p2 <- Person_init "Jaan" "Kask" 25 ;;
      Bank_add_customer b p1 100000000000000001 ;;
      Bank_add_customer b p2 100000000000000002 ;;
      Account_deposit 0 100 true day) empty_heap).

(** Two banks with one customer each: account 0 (balance 100) at bank 0 and
    account 1 (balance 0) at bank 1. *)
Definition two_banks : Heap :=
  Eval vm_compute in
  heap_of
    ((b1 <- Bank_init "Swed" ;;
      b2 <- Bank_init "SEB" ;;
      p1 <- Person_init "Anna" "Tamm" 30 ;;
      p2 <- Person_init "Jaan" "Kask" 25 ;;
      Bank_add_customer b1 p1 100000000000000001 ;;
      Bank_add_customer b2 p2 100000000000000002 ;;
      Account_deposit 0 100 true day) empty_heap).

(** One person who became a customer of bank 0, deposited 100 there, and
    then became a customer of bank 1: accounts 0 and 1 have the same owner. *)
Definition two_accounts_one_person : Heap :=
  Eval vm_compute in
  heap_of
    ((b1 <- Bank_init "Swed" ;;
      b2 <- Bank_init "SEB" ;;
      p <- Person_init "Anna" "Tamm" 30 ;;
      Bank_add_customer b1 p 100000000000000001 ;;
      Account_deposit 0 100 true day ;;
      Bank_add_customer b2 p 100000000000000002) empty_heap).

(** Two banks and one person, a customer of bank 0 only, with 100 on
    account 0. *)
Definition one_customer : Heap :=
  Eval vm_compute in
  heap_of
    ((b1 <- Bank_init "Swed" ;;
      b2 <- Bank_init "SEB" ;;
      p <- Person_init "Anna" "Tamm" 30 ;;
      Bank_add_customer b1 p 100000000000000001 ;;
      Account_deposit 0 100 true day) empty_heap).

(** ** Sequences of calls *)

(** A call of one of the three methods that move money. *)
Inductive call : Type :=
| Deposit (self : nat) (amount : Z) (is_from_atm : bool) (today : Z)
| Withdraw (self : nat) (amount : Z) (is_from_atm : bool) (today : Z)
| Transfer (self : nat) (amount : Z) (receiver_account : nat) (today : Z).

(** The store a call leaves behind, whether it returns or raises. *)
Definition heap_after {A} (r : result A) : option Heap :=
  match r with
  | Ret _ h | Raise _ h => Some h
  | NoSuchObject => None
  end.

Definition exec (c : call) (h : Heap) : option Heap :=
  match c with
  | Deposit self amount is_from_atm today =>
      heap_after (Account_deposit self amount is_from_atm today h)
  | Withdraw self amount is_from_atm today =>
      heap_after (Account_withdraw self amount is_from_atm today h)
  | Transfer self amount receiver_account today =>
      heap_after (Account_transfer self amount receiver_account today h)
  end.

(** The caller goes on with the next call after an exception. *)
Fixpoint run (cs : list call) (h : Heap) : option Heap :=
  match cs with
  | [] => Some h
  | c :: cs' =>
      match exec c h with
      | Some h' => run cs' h'
      | None => None
      end
  end.

(** The accounts a call mentions are objects of the store. *)
Definition call_in (h : Heap) (c : call) : Prop :=
  match c with
  | Deposit self _ _ _ | Withdraw self _ _ _ =>
      (self < length (accounts h))%nat
  | Transfer self _ receiver_account _ =>
      (self < length (accounts h))%nat
      /\ (receiver_account < length (accounts h))%nat
  end.

(** The bank of every account is an object of the store. *)
Definition heap_wf (h : Heap) : Prop :=
  Forall (fun x => (Account.bank x < length (banks h))%nat) (accounts h).

Definition balances_nonneg (h : Heap) : Prop :=
  Forall (fun x => 0 <= Account._balance x) (accounts h).

(** A transaction that is not from an ATM has a positive amount. *)
Definition tx_ok (t : Transaction.t) : Prop :=
  Transaction.is_from_atm t = false -> 0 < Transaction.amount t.

Definition histories_ok (h : Heap) : Prop :=
  Forall (fun x => Forall tx_ok (Account.transactions x)) (accounts h).

(** Close the invariants on a store rebuilt by updates of objects. *)
Ltac solve_inv :=
  unfold heap_wf, balances_nonneg, histories_ok in *; simpl;
  rewrite ?length_insert;
  repeat (apply Forall_insert; simpl);
  try assumption; simpl;
  repeat match goal with
    | H : Forall ?P ?l, E : ?l !! _ = Some ?x |- _ =>
        lazymatch goal with
        | _ : P x |- _ => fail
        | _ => pose proof (Forall_lookup_1 P l _ x H E)
        end
    end;
  simpl in *;
  try assumption;
  try lia;
  try (apply Forall_app; split; [assumption|];
       apply Forall_singleton; unfold tx_ok; simpl; intros; try done; lia).

(** ** Turnover *)

(** Following the spec's words for the credit turnover: the money going out
    with one transaction, that is the amount withdrawn by an ATM withdrawal
    (an ATM transaction with a negative amount) and the amount of a
    transaction that is not from an ATM and that the account sent. *)
Definition outgoing (self : nat) (i : Transaction.t) : Z :=
  if Transaction.is_from_atm i then
    if Transaction.amount i <? 0 then - Transaction.amount i else 0
  else
    if (self =? Transaction.sender_account i)%nat
    then Transaction.amount i else 0.

(** Following the spec's words: the credit turnover is the sum of the
    outgoing money of the transactions of the period, that is of those
    whose date [d] satisfies [from_date <= d <= to_date], as a negative
    number. *)
Definition credit_turnover_spec (self : nat) (from_date to_date : Z)
    (l : list Transaction.t) : Z :=
  - foldr (fun i acc => outgoing self i + acc) 0
          (filter (fun i => from_date <= Transaction.date i <= to_date) l).

(** A store with one bank and one customer, whose account 0 is new. *)
Definition new_customer : Heap :=
  Eval vm_compute in
  heap_of
    ((b <- Bank_init "Swed" ;;
      p <- Person_init "Anna" "Tamm" 30 ;;
      Bank_add_customer b p 100000000000000001) empty_heap).

(** ** Observations on a store *)

(** The money held by all the accounts of the store. *)
Definition total_balance (h : Heap) : Z :=
  foldr (fun x acc => Account._balance x + acc) 0 (accounts h).

(** ** The effect of one call on the store *)

(** The calls that write what they do into the histories: deposits and
    withdrawals flagged as coming from an ATM, and transfers of a positive
    amount. *)
Definition ledger_call (c : call) : Prop :=
  match c with
  | Deposit _ _ is_from_atm _ | Withdraw _ _ is_from_atm _ =>
      is_from_atm = true
  | Transfer _ amount _ _ => 0 < amount
  end.

(** The stores a call of [deposit], [withdraw] or [transfer] can leave:
    the same store (the call raised before any assignment); a new balance
    for one account (a call not flagged as coming from an ATM); a new
    balance and one transaction recorded in the account and its bank (a
    flagged call); a transfer carried out; a transfer that raised after
    its debit. *)
Inductive money_step (h : Heap) (c : call) (h' : Heap) : Prop :=
| step_refused :
    h' = h -> money_step h c h'
| step_internal a x v :
    ~ ledger_call c ->
    accounts h !! a = Some x ->
    h' = mkHeap (persons h) (banks h) (<[a := with_balance v x]> (accounts h)) ->
    money_step h c h'
| step_atm a x bk v today :
    accounts h !! a = Some x ->
    banks h !! Account.bank x = Some bk ->
    h' = mkHeap (persons h)
           (<[Account.bank x :=
                recorded (Transaction.mk v today a a true) bk]> (banks h))
           (<[a := credited v (Transaction.mk v today a a true) x]>
              (accounts h)) ->
    money_step h c h'
| step_transfer a b s r bks bkr amount fee today :
    a <> b ->
    accounts h !! a = Some s ->
    accounts h !! b = Some r ->
    banks h !! Account.bank s = Some bks ->
    banks h !! Account.bank r = Some bkr ->
    0 < amount ->
    fee = (if (Account.bank s =? Account.bank r)%nat then 0 else 5) ->
    h' = mkHeap (persons h)
           (<[Account.bank s := recorded (transfer_tx a b amount today) bks]>
              (<[Account.bank r := recorded (transfer_tx a b amount today) bkr]>
                 (banks h)))
           (<[a := debited (amount + fee) (transfer_tx a b amount today) s]>
              (<[b := credited amount (transfer_tx a b amount today) r]>
                 (accounts h))) ->
    money_step h c h'
| step_partial a s r bkr v t :
    ~ ledger_call c ->
    accounts h !! a = Some s ->
    banks h !! Account.bank r = Some bkr ->
    h' = mkHeap (persons h)
           (<[Account.bank r := recorded t bkr]> (banks h))
           (<[a := with_balance v s]> (accounts h)) ->
    money_step h c h'.

(** An account, a bank and a store after more transactions were recorded:
    nothing but balances and the ends of the lists of transactions differ. *)
Definition account_grows (x x' : Account.t) : Prop :=
  Account.person x' = Account.person x
  /\ Account.bank x' = Account.bank x
  /\ Account.number x' = Account.number x
  /\ Account.transactions x `prefix_of` Account.transactions x'.

Definition bank_grows (x x' : Bank.t) : Prop :=
  Bank.name x' = Bank.name x
  /\ Bank.customers x' = Bank.customers x
  /\ Bank.transactions x `prefix_of` Bank.transactions x'.

Definition heap_grows (h h' : Heap) : Prop :=
  persons h' = persons h
  /\ Forall2 account_grows (accounts h) (accounts h')
  /\ Forall2 bank_grows (banks h) (banks h').

(** Every transaction in the history of an account is in the list of the
    bank of the account. *)
Definition bank_has_histories (h : Heap) : Prop :=
  forall a x, accounts h !! a = Some x ->
    exists bk, banks h !! Account.bank x = Some bk
               /\ forall t, t ∈ Account.transactions x ->
                            t ∈ Bank.transactions bk.

(** What one transaction counts for in the net turnover of [self] over a
    period that holds its date: the rounds of the two loops, run on it. *)
Definition net_of (self : nat) (i : Transaction.t) : Z :=
  debit_step self (Transaction.date i) (Transaction.date i) 0 i
  + credit_step self (Transaction.date i) (Transaction.date i) 0 i.

Definition bank_of (h : Heap) (a : nat) : option nat :=
  Account.bank <$> accounts h !! a.

(** The fee of a transaction for [self]: 5 when [self] sent it, not from an
    ATM, to an account of another bank. *)
Definition fee_of (h : Heap) (self : nat) (i : Transaction.t) : Z :=
  if negb (Transaction.is_from_atm i)
     && (Transaction.sender_account i =? self)%nat
     && negb (bool_decide (bank_of h (Transaction.receiver_account i)
                           = bank_of h self))
  then 5 else 0.

Definition fees_paid (h : Heap) (self : nat) (l : list Transaction.t) : Z :=
  foldr (fun i acc => fee_of h self i + acc) 0 l.

Definition history_net (self : nat) (l : list Transaction.t) : Z :=
  foldr (fun i acc => net_of self i + acc) 0 l.

(** The balance of every account is what its history says. *)
Definition ledger_inv (h : Heap) : Prop :=
  forall a x, accounts h !! a = Some x ->
    Account._balance x
    = history_net a (Account.transactions x)
      - fees_paid h a (Account.transactions x).

(** Accounts as [add_customer] makes them. *)
Definition new_accounts (h : Heap) : Prop :=
  Forall (fun x => Account._balance x = 0 /\ Account.transactions x = [])
         (accounts h).

(** * The functions of [KT/kt1/exam.py]

    Numbers are Python integers, in [Z]; a string is the list of its
    characters, over any type of characters with a decidable equality.  An
    index out of range, where Python raises [IndexError], is [None]. *)

Module Exam.

Definition positive_or_not (nums : list Z) (pos : bool) : list Z :=
  if pos then
    fold_left (fun list_list a => if 1 <=? a then list_list ++ [a] else list_list)
              nums []
  else
    fold_left (fun list_list a => if a <=? 0 then list_list ++ [a] else list_list)
              nums [].

(** The loop [for al in counter: al += al]: each round binds [al] to the
    element and doubles it, whatever [al] was.  The loop is only run on a
    [counter] that is not empty, so the value given for [al] before the
    loop, where Python has no binding yet, is never the result. *)
Definition double_each (counter : list Z) : Z :=
  fold_left (fun (_ : Z) (al : Z) => al + al) counter 0.

Definition sum_half_evens (nums : list Z) : option Z :=
  let list_list :=
    fold_left (fun list_list a =>
                 if a mod 2 =? 0 then list_list ++ [a] else list_list)
              nums [] in
  let indexx := (length list_list / 2)%nat in
  let counter := take indexx list_list in
  if (1 <=? length counter)%nat then
    if negb (length list_list mod 2 =? 0)%nat then
      match list_list !! (length list_list / 2)%nat with
      | Some a => let al := double_each counter in Some (al + a)
      | None => None
      end
    else
      let al := double_each counter in Some al
  else
    if negb (length list_list mod 2 =? 0)%nat then
      list_list !! (length list_list / 2)%nat
    else Some 0.

(** [s.count(char)] for a string [char] of one character. *)
Fixpoint str_count {char} `{EqDecision char} (c : char) (s : list char) : nat :=
  match s with
  | [] => 0
  | x :: s' => if decide (x = c) then S (str_count c s') else str_count c s'
  end.

Definition max_block {char} `{EqDecision char} (s : list char) : nat :=
  if (1 <=? length s)%nat then
    fold_left (fun counter c =>
                 let count := str_count c s in
                 if (counter <=? count)%nat then count else counter)
              s 0%nat
  else 0%nat.

End Exam.

(** * Properties *)

(** ** Basic facts about the store operations *)

Lemma account_append_eq h a x t :
  accounts h !! a = Some x ->
  account_append a t h
  = Ret tt (mkHeap (persons h) (banks h)
              (<[a := with_transactions (Account.transactions x ++ [t]) x]>
                 (accounts h))).
Proof. intros E. unfold_m. by rewrite E. Qed.

Lemma bank_append_eq h b x t :
  banks h !! b = Some x ->
  bank_append b t h
  = Ret tt (mkHeap (persons h)
              (<[b := with_bank_transactions (Bank.transactions x ++ [t]) x]>
                 (banks h))
              (accounts h)).
Proof. intros E. unfold_m. by rewrite E. Qed.

(** A debit or credit made on behalf of a transfer ([is_from_atm] false)
    only touches the balance. *)
Lemma withdraw_internal_eq h a x amount today :
  accounts h !! a = Some x ->
  Account_withdraw a amount false today h
  = if (amount <=? 0) || (Account._balance x <? amount)
    then Raise TransactionError h
    else Ret tt (mkHeap (persons h) (banks h)
                   (<[a := with_balance (Account._balance x - amount) x]>
                      (accounts h))).
Proof.
  intros E. unfold Account_withdraw. unfold_m. rewrite E.
  destruct ((amount <=? 0) || (Account._balance x <? amount)); [done|].
  by rewrite E.
Qed.

Lemma deposit_internal_eq h a x amount today :
  accounts h !! a = Some x ->
  Account_deposit a amount false today h
  = if amount <=? 0
    then Raise TransactionError h
    else Ret tt (mkHeap (persons h) (banks h)
                   (<[a := with_balance (Account._balance x + amount) x]>
                      (accounts h))).
Proof.
  intros E. unfold Account_deposit. unfold_m. rewrite E.
  destruct (amount <=? 0); [done|]. by rewrite E.
Qed.

(** The ATM forms also record one transaction in the account and in its
    bank. *)
Lemma withdraw_atm_eq h a x bk amount today :
  accounts h !! a = Some x ->
  banks h !! Account.bank x = Some bk ->
  Account_withdraw a amount true today h
  = if (amount <=? 0) || (Account._balance x <? amount)
    then Raise TransactionError h
    else
      let t := Transaction.mk (- amount) today a a true in
      Ret tt (mkHeap (persons h)
                (<[Account.bank x :=
                     with_bank_transactions (Bank.transactions bk ++ [t]) bk]>
                   (banks h))
                (<[a := Account.mk (Account._balance x - amount)
                          (Account.person x) (Account.bank x)
                          (Account.transactions x ++ [t]) (Account.number x)]>
                   (accounts h))).
Proof.
  intros E Eb. unfold Account_withdraw. unfold_m. rewrite E.
  destruct ((amount <=? 0) || (Account._balance x <? amount)); [done|].
  rewrite E. simpl.
  rewrite list_lookup_insert_eq by (by eapply lookup_lt_Some).
  simpl. rewrite Eb. simpl. by rewrite list_insert_insert_eq.
Qed.

Lemma deposit_atm_eq h a x bk amount today :
  accounts h !! a = Some x ->
  banks h !! Account.bank x = Some bk ->
  Account_deposit a amount true today h
  = if amount <=? 0
    then Raise TransactionError h
    else
      let t := Transaction.mk amount today a a true in
      Ret tt (mkHeap (persons h)
                (<[Account.bank x :=
                     with_bank_transactions (Bank.transactions bk ++ [t]) bk]>
                   (banks h))
                (<[a := Account.mk (Account._balance x + amount)
                          (Account.person x) (Account.bank x)
                          (Account.transactions x ++ [t]) (Account.number x)]>
                   (accounts h))).
Proof.
  intros E Eb. unfold Account_deposit. unfold_m. rewrite E.
  destruct (amount <=? 0); [done|].
  rewrite E. simpl.
  rewrite list_lookup_insert_eq by (by eapply lookup_lt_Some).
  simpl. rewrite Eb. simpl. by rewrite list_insert_insert_eq.
Qed.

(** What [Account.transfer] computes.  The guard [A and B or C] of
    [transfer] is true exactly when the receiver is not the sender's own
    account: when it is the same account the persons are equal too, and when
    it is not, the last disjunct holds whatever the balance is.  The balance
    is then checked by [withdraw]. *)
Lemma transfer_eq h self receiver_account amount today s r bks bkr :
  accounts h !! self = Some s ->
  accounts h !! receiver_account = Some r ->
  banks h !! Account.bank s = Some bks ->
  banks h !! Account.bank r = Some bkr ->
  Account_transfer self amount receiver_account today h =
  let t := transfer_tx self receiver_account amount today in
  if (receiver_account =? self)%nat then Raise TransactionError h
  else if (Account.bank s =? Account.bank r)%nat then
    if (amount <=? 0) || (Account._balance s <? amount)
    then Raise TransactionError h
    else Ret tt (mkHeap (persons h)
                   (<[Account.bank s := recorded t bks]> (banks h))
                   (<[self := debited amount t s]>
                      (<[receiver_account := credited amount t r]>
                         (accounts h))))
  else
    if (amount + 5 <=? 0) || (Account._balance s <? amount + 5)
    then Raise TransactionError h
    else if amount <=? 0
    then Raise TransactionError
           (mkHeap (persons h)
              (<[Account.bank r := recorded t bkr]> (banks h))
              (<[self := with_balance (Account._balance s - (amount + 5)) s]>
                 (accounts h)))
    else Ret tt (mkHeap (persons h)
                   (<[Account.bank s := recorded t bks]>
                      (<[Account.bank r := recorded t bkr]> (banks h)))
                   (<[self := debited (amount + 5) t s]>
                      (<[receiver_account := credited amount t r]>
                         (accounts h)))).
Proof.
  intros Es Er Ebs Ebr. unfold Account_transfer.
  unfold bind at 1, get_account at 1. rewrite Es.
  unfold bind at 1, get_account at 1. rewrite Er.
  destruct (receiver_account =? self)%nat eqn:Hrs; simpl.
  { apply Nat.eqb_eq in Hrs. subst. rewrite Es in Er. injection Er as ->.
    rewrite Nat.eqb_refl, andb_false_r. done. }
  rewrite orb_true_r.
  apply Nat.eqb_neq in Hrs.
  assert (Hsr : self <> receiver_account) by (intros ->; by apply Hrs).
  destruct (Account.bank s =? Account.bank r)%nat eqn:Hb; simpl.
  - unfold bind at 1. rewrite (withdraw_internal_eq _ _ _ _ _ Es).
    destruct ((amount <=? 0) || (Account._balance s <? amount)) eqn:Hc; [done|].
    apply orb_false_elim in Hc as [Hc _].
    unfold bind at 1.
    erewrite deposit_internal_eq by (simpl; lookup_acc).
    rewrite Hc.
    unfold bind at 1.
    erewrite account_append_eq by (simpl; lookup_acc).
    unfold bind at 1.
    erewrite bank_append_eq by (simpl; exact Ebs).
    erewrite account_append_eq by (simpl; lookup_acc).
    simpl. rewrite list_insert_insert_eq.
    rewrite (list_insert_insert_ne _ receiver_account self) by done.
    by rewrite list_insert_insert_eq.
  - apply Nat.eqb_neq in Hb.
    unfold bind at 1. unfold bind at 1.
    rewrite (withdraw_internal_eq _ _ _ _ _ Es).
    destruct ((amount + 5 <=? 0) || (Account._balance s <? amount + 5));
      [done|].
    erewrite bank_append_eq by (simpl; exact Ebr).
    unfold bind at 1.
    erewrite deposit_internal_eq by (simpl; lookup_acc).
    destruct (amount <=? 0); [done|].
    unfold bind at 1.
    erewrite account_append_eq by (simpl; lookup_acc).
    unfold bind at 1.
    erewrite bank_append_eq
      by (simpl; rewrite list_lookup_insert_ne by done; exact Ebs).
    erewrite account_append_eq by (simpl; lookup_acc).
    simpl. rewrite list_insert_insert_eq.
    rewrite (list_insert_insert_ne _ receiver_account self) by done.
    by rewrite list_insert_insert_eq.
Qed.

(** ** The scenarios *)

Example one_bank_accounts :
  (Account._balance <$> accounts one_bank) = [100; 0]
  /\ (Account.bank <$> accounts one_bank) = [0; 0]%nat
  /\ (Account.person <$> accounts one_bank) = [0; 1]%nat.
Proof. by vm_compute. Qed.

Example two_banks_accounts :
  (Account._balance <$> accounts two_banks) = [100; 0]
  /\ (Account.bank <$> accounts two_banks) = [0; 1]%nat
  /\ (Account.person <$> accounts two_banks) = [0; 1]%nat.
Proof. by vm_compute. Qed.

Example two_accounts_one_person_accounts :
  (Account._balance <$> accounts two_accounts_one_person) = [100; 0]
  /\ (Account.bank <$> accounts two_accounts_one_person) = [0; 1]%nat
  /\ (Account.person <$> accounts two_accounts_one_person) = [0; 0]%nat.
Proof. by vm_compute. Qed.

(** ** Withdrawals *)

(** C7.  [Account.withdraw(amount)] raises, with [TransactionError] (the
    only transaction error of the code), if and only if [amount <= 0] or the
    balance is less than [amount], and then the store is unchanged.
    Otherwise it returns, the balance is lower by exactly [amount], and when
    the call is flagged as coming from an ATM one transaction from the
    account to itself with amount [- amount] is appended to the history of
    the account and to the list of its bank (and none when it is not
    flagged); every other object is unchanged. *)
Theorem Account_withdraw_spec h self x bk amount is_from_atm today :
  accounts h !! self = Some x ->
  banks h !! Account.bank x = Some bk ->
  let res := Account_withdraw self amount is_from_atm today h in
  let new := if is_from_atm
             then [Transaction.mk (- amount) today self self true]
             else [] in
  ((exists e h', res = Raise e h')
   <-> amount <= 0 \/ Account._balance x < amount)
  /\ (amount <= 0 \/ Account._balance x < amount ->
      res = Raise TransactionError h)
  /\ (0 < amount <= Account._balance x ->
      exists h',
        res = Ret tt h'
        /\ persons h' = persons h
        /\ accounts h' !! self
           = Some (Account.mk (Account._balance x - amount) (Account.person x)
                     (Account.bank x) (Account.transactions x ++ new)
                     (Account.number x))
        /\ (forall a, a <> self -> accounts h' !! a = accounts h !! a)
        /\ banks h' !! Account.bank x
           = Some (Bank.mk (Bank.name bk) (Bank.customers bk)
                     (Bank.transactions bk ++ new))
        /\ (forall b, b <> Account.bank x -> banks h' !! b = banks h !! b)).
Proof.
  intros Ex Eb res new.
  assert (Hres : res =
    if (amount <=? 0) || (Account._balance x <? amount)
    then Raise TransactionError h
    else Ret tt (mkHeap (persons h)
                   (<[Account.bank x :=
                        Bank.mk (Bank.name bk) (Bank.customers bk)
                          (Bank.transactions bk ++ new)]> (banks h))
                   (<[self :=
                        Account.mk (Account._balance x - amount)
                          (Account.person x) (Account.bank x)
                          (Account.transactions x ++ new)
                          (Account.number x)]> (accounts h)))).
  { subst res new. destruct is_from_atm.
    - by rewrite (withdraw_atm_eq _ _ _ _ _ _ Ex Eb).
    - rewrite (withdraw_internal_eq _ _ _ _ _ Ex).
      destruct ((amount <=? 0) || (Account._balance x <? amount)); [done|].
      rewrite !app_nil_r. f_equal. f_equal.
      symmetry. apply list_insert_id. by destruct bk. }
  clearbody res new. subst res.
  destruct (Z.leb_spec amount 0) as [Ha|Ha]; simpl.
  { split; [|split]; [| done | lia].
    split; [intros _; by left | intros _; by do 2 eexists]. }
  destruct (Z.ltb_spec (Account._balance x) amount) as [Hb|Hb]; simpl.
  { split; [|split]; [| done | lia].
    split; [intros _; by right | intros _; by do 2 eexists]. }
  split; [|split].
  - split; [intros (e & h' & [=]) | lia].
  - lia.
  - intros _. eexists. split; [done|]. simpl.
    split; [done|]. split; [|split; [|split]].
    + apply list_lookup_insert_eq. by eapply lookup_lt_Some.
    + intros a Ha'. by apply list_lookup_insert_ne.
    + apply list_lookup_insert_eq. by eapply lookup_lt_Some.
    + intros b Hb'. by apply list_lookup_insert_ne.
Qed.

Lemma Account_withdraw_spec_witness :
  exists h',
    Account_withdraw 0 30 true day two_banks = Ret tt h'
    /\ Account._balance <$> accounts h' !! 0%nat = Some 70.
Proof.
  destruct (Account_withdraw_spec two_banks 0
              (Account.mk 100 0 0 [Transaction.mk 100 day 0 0 true]
                 "EE100000000000000001")
              (Bank.mk "Swed" [0%nat] [Transaction.mk 100 day 0 0 true])
              30 true day eq_refl eq_refl) as (_ & _ & H).
  destruct H as (h' & Hr & _ & Ha & _); [simpl; lia|].
  exists h'. split; [exact Hr|]. rewrite Ha. reflexivity.
Defined.

(** ** Transfers *)

(** A transfer to the sender's own account is refused and changes nothing. *)
Lemma transfer_to_self_refused h self s amount today :
  accounts h !! self = Some s ->
  Account_transfer self amount self today h = Raise TransactionError h.
Proof.
  intros Es. unfold Account_transfer.
  unfold bind at 1, get_account at 1. rewrite Es.
  unfold bind at 1, get_account at 1. rewrite Es.
  by rewrite !Nat.eqb_refl, andb_false_r.
Qed.

(** The only error a transfer raises is [TransactionError]. *)
Lemma transfer_result_cases h self receiver_account amount today s r bks bkr :
  accounts h !! self = Some s ->
  accounts h !! receiver_account = Some r ->
  banks h !! Account.bank s = Some bks ->
  banks h !! Account.bank r = Some bkr ->
  (exists h', Account_transfer self amount receiver_account today h = Ret tt h')
  \/ (exists h', Account_transfer self amount receiver_account today h
                 = Raise TransactionError h').
Proof.
  intros Es Er Ebs Ebr.
  rewrite (transfer_eq _ _ _ amount today _ _ _ _ Es Er Ebs Ebr). simpl.
  repeat case_match; eauto.
Qed.

(** A transfer that raises leaves the store as it was, except when the two
    banks differ and [-5 < amount <= 0 <= balance - (amount + 5)]: then the
    debit of [amount + 5] has been made when the credit of [amount] is
    refused. *)
Lemma transfer_raise_unchanged h self receiver_account amount today
    s r bks bkr e h' :
  accounts h !! self = Some s ->
  accounts h !! receiver_account = Some r ->
  banks h !! Account.bank s = Some bks ->
  banks h !! Account.bank r = Some bkr ->
  Account_transfer self amount receiver_account today h = Raise e h' ->
  ~ (Account.bank s <> Account.bank r
     /\ -5 < amount <= 0 /\ amount + 5 <= Account._balance s) ->
  h' = h.
Proof.
  intros Es Er Ebs Ebr.
  rewrite (transfer_eq _ _ _ amount today _ _ _ _ Es Er Ebs Ebr). simpl.
  intros H Hn.
  destruct (receiver_account =? self)%nat; [by injection H|].
  destruct (Account.bank s =? Account.bank r)%nat eqn:Hb.
  - destruct ((amount <=? 0) || (Account._balance s <? amount));
      [by injection H | done].
  - apply Nat.eqb_neq in Hb.
    destruct ((amount + 5 <=? 0) || (Account._balance s <? amount + 5)) eqn:Hc;
      [by injection H|].
    apply orb_false_elim in Hc as [Hc1 Hc2].
    destruct (Z.leb_spec amount 0); [|done].
    exfalso. apply Hn. lia.
Qed.

(** C4.  A successful transfer of a positive amount takes [amount + 5] from
    the sender when the two accounts are at different banks and exactly
    [amount] when they are at the same bank, adds [amount] to the receiver,
    and appends one transaction (the given amount, sender and receiver, not
    from an ATM) to the history of the sender, to the history of the
    receiver, to the list of the sender's bank and to the list of the
    receiver's bank; when the two banks are one and the same, that bank's
    list gets the transaction once.  Nothing else changes. *)
Theorem Account_transfer_success h self receiver_account amount today
    s r bks bkr h' :
  accounts h !! self = Some s ->
  accounts h !! receiver_account = Some r ->
  banks h !! Account.bank s = Some bks ->
  banks h !! Account.bank r = Some bkr ->
  Account_transfer self amount receiver_account today h = Ret tt h' ->
  0 < amount ->
  let t := Transaction.mk amount today self receiver_account false in
  let fee := if (Account.bank s =? Account.bank r)%nat then 0 else 5 in
  0 < Transaction.amount t
  /\ Transaction.is_from_atm t = false
  /\ self <> receiver_account
  /\ persons h' = persons h
  /\ accounts h' !! self
     = Some (Account.mk (Account._balance s - (amount + fee))
               (Account.person s) (Account.bank s)
               (Account.transactions s ++ [t]) (Account.number s))
  /\ accounts h' !! receiver_account
     = Some (Account.mk (Account._balance r + amount)
               (Account.person r) (Account.bank r)
               (Account.transactions r ++ [t]) (Account.number r))
  /\ (forall a, a <> self -> a <> receiver_account ->
        accounts h' !! a = accounts h !! a)
  /\ banks h' !! Account.bank s
     = Some (Bank.mk (Bank.name bks) (Bank.customers bks)
               (Bank.transactions bks ++ [t]))
  /\ banks h' !! Account.bank r
     = Some (Bank.mk (Bank.name bkr) (Bank.customers bkr)
               (Bank.transactions bkr ++ [t]))
  /\ (forall b, b <> Account.bank s -> b <> Account.bank r ->
        banks h' !! b = banks h !! b).
Proof.
  intros Es Er Ebs Ebr.
  rewrite (transfer_eq _ _ _ amount today _ _ _ _ Es Er Ebs Ebr). simpl.
  intros H Hpos.
  destruct (receiver_account =? self)%nat eqn:Hrs; [done|].
  apply Nat.eqb_neq in Hrs.
  assert (Hsr : self <> receiver_account) by (intros ->; by apply Hrs).
  assert (Hls : (self < length (accounts h))%nat) by (by eapply lookup_lt_Some).
  assert (Hlr : (receiver_account < length (accounts h))%nat)
    by (by eapply lookup_lt_Some).
  assert (Hlbs : (Account.bank s < length (banks h))%nat)
    by (by eapply lookup_lt_Some).
  assert (Hlbr : (Account.bank r < length (banks h))%nat)
    by (by eapply lookup_lt_Some).
  do 3 (split; [done|]).
  destruct (Account.bank s =? Account.bank r)%nat eqn:Hb.
  - apply Nat.eqb_eq in Hb.
    destruct ((amount <=? 0) || (Account._balance s <? amount)); [done|].
    injection H as <-. simpl.
    assert (bkr = bks) as -> by (rewrite Hb in Ebs; congruence).
    rewrite Z.add_0_r.
    split; [done|]. split; [|split; [|split; [|split; [|split]]]].
    + apply list_lookup_insert_eq. by rewrite length_insert.
    + rewrite list_lookup_insert_ne by done. by apply list_lookup_insert_eq.
    + intros a Ha1 Ha2. by rewrite !list_lookup_insert_ne.
    + by apply list_lookup_insert_eq.
    + rewrite <- Hb. by apply list_lookup_insert_eq.
    + intros b Hb1 _. by rewrite list_lookup_insert_ne.
  - apply Nat.eqb_neq in Hb.
    destruct ((amount + 5 <=? 0) || (Account._balance s <? amount + 5));
      [done|].
    destruct (amount <=? 0); [done|].
    injection H as <-. simpl.
    split; [done|]. split; [|split; [|split; [|split; [|split]]]].
    + apply list_lookup_insert_eq. by rewrite length_insert.
    + rewrite list_lookup_insert_ne by done. by apply list_lookup_insert_eq.
    + intros a Ha1 Ha2. by rewrite !list_lookup_insert_ne.
    + apply list_lookup_insert_eq. by rewrite length_insert.
    + rewrite list_lookup_insert_ne by done. by apply list_lookup_insert_eq.
    + intros b Hb1 Hb2. by rewrite !list_lookup_insert_ne.
Qed.

Lemma Account_transfer_success_witness :
  exists h',
    Account_transfer 0 50 1 day two_banks = Ret tt h'
    /\ Account._balance <$> accounts h' !! 0%nat = Some 45
    /\ Account._balance <$> accounts h' !! 1%nat = Some 50.
Proof.
  pose proof (Account_transfer_success two_banks 0 1 50 day
                (Account.mk 100 0 0 [Transaction.mk 100 day 0 0 true]
                   "EE100000000000000001")
                (Account.mk 0 1 1 [] "EE100000000000000002")
                (Bank.mk "Swed" [0%nat] [Transaction.mk 100 day 0 0 true])
                (Bank.mk "SEB" [1%nat] [])
                (heap_of (Account_transfer 0 50 1 day two_banks))
                eq_refl eq_refl eq_refl eq_refl eq_refl) as H.
  destruct H as (_ & _ & _ & _ & H0 & H1 & _); [lia|].
  exists (heap_of (Account_transfer 0 50 1 day two_banks)).
  split; [reflexivity|].
  split; [exact (f_equal (fmap Account._balance) H0)
         |exact (f_equal (fmap Account._balance) H1)].
Defined.

(** C1, as stated, fails.  In [one_bank] account 0 holds 100, which is at
    least [0 + 5], and account 1 is another account; yet a transfer of 0
    from account 0 to account 1 raises: [withdraw] refuses an amount that is
    not positive. *)
Lemma transfer_of_zero_refused :
  Account._balance <$> accounts one_bank !! 0%nat = Some 100
  /\ 0 + 5 <= 100
  /\ 0%nat <> 1%nat
  /\ Account_transfer 0 0 1 day one_bank = Raise TransactionError one_bank
  /\ ~ (exists h', Account_transfer 0 0 1 day one_bank = Ret tt h').
Proof.
  split; [reflexivity|]. split; [lia|]. split; [lia|].
  split; [reflexivity|]. intros (h' & H). vm_compute in H. discriminate H.
Qed.

(** C1, amended.  [transfer] returns or raises [TransactionError], the only
    transaction error of the code.  It raises whenever the receiver is the
    sender's own account, or the amount is not positive, or the balance is
    less than the amount, or the two accounts are at different banks and the
    balance is less than [amount + 5].  It returns whenever the receiver
    belongs to another person, the amount is positive and the balance is at
    least [amount + 5]; so between accounts of different persons at
    different banks it returns if and only if the amount is positive and
    the balance is at least [amount + 5]. *)
Theorem Account_transfer_outcome h self receiver_account amount today
    s r bks bkr :
  accounts h !! self = Some s ->
  accounts h !! receiver_account = Some r ->
  banks h !! Account.bank s = Some bks ->
  banks h !! Account.bank r = Some bkr ->
  let res := Account_transfer self amount receiver_account today h in
  ((exists h', res = Ret tt h') \/ (exists h', res = Raise TransactionError h'))
  /\ (receiver_account = self \/ amount <= 0 \/ Account._balance s < amount
      \/ (Account.bank s <> Account.bank r
          /\ Account._balance s < amount + 5) ->
      exists h', res = Raise TransactionError h')
  /\ (Account.person s <> Account.person r -> 0 < amount ->
      amount + 5 <= Account._balance s ->
      exists h', res = Ret tt h')
  /\ (Account.person s <> Account.person r ->
      Account.bank s <> Account.bank r ->
      ((exists h', res = Ret tt h')
       <-> 0 < amount /\ amount + 5 <= Account._balance s)).
Proof.
  intros Es Er Ebs Ebr res.
  split; [by eapply transfer_result_cases|].
  subst res.
  rewrite (transfer_eq _ _ _ amount today _ _ _ _ Es Er Ebs Ebr). simpl.
  destruct (Nat.eqb_spec receiver_account self) as [Hrs|Hrs].
  { subst. rewrite Es in Er. injection Er as ->.
    split; [eauto|]. split; [done|]. done. }
  destruct (Nat.eqb_spec (Account.bank s) (Account.bank r)) as [Hb|Hb].
  - destruct (Z.leb_spec amount 0); simpl.
    { split; [eauto|]. split; [lia | done]. }
    destruct (Z.ltb_spec (Account._balance s) amount); simpl.
    { split; [eauto|]. split; [lia | done]. }
    split; [intros [?|[?|[?|[? ?]]]]; [done | lia | lia | done]|].
    split; [eauto | done].
  - destruct (Z.leb_spec (amount + 5) 0); simpl.
    { split; [eauto|]. split; [lia|]. intros _ _.
      split; [by intros [? ?] | lia]. }
    destruct (Z.ltb_spec (Account._balance s) (amount + 5)); simpl.
    { split; [eauto|]. split; [lia|]. intros _ _.
      split; [by intros [? ?] | lia]. }
    destruct (Z.leb_spec amount 0).
    { split; [eauto|]. split; [lia|]. intros _ _.
      split; [by intros [? ?] | lia]. }
    split; [intros [?|[?|[?|[? ?]]]]; [done | lia | lia | lia]|].
    split; [eauto|]. intros _ _. split; [lia | eauto].
Qed.

Lemma Account_transfer_outcome_witness :
  exists h', Account_transfer 0 50 1 day two_banks = Ret tt h'.
Proof.
  pose proof (Account_transfer_outcome two_banks 0 1 50 day
                (Account.mk 100 0 0 [Transaction.mk 100 day 0 0 true]
                   "EE100000000000000001")
                (Account.mk 0 1 1 [] "EE100000000000000002")
                (Bank.mk "Swed" [0%nat] [Transaction.mk 100 day 0 0 true])
                (Bank.mk "SEB" [1%nat] [])
                eq_refl eq_refl eq_refl eq_refl) as (_ & _ & H & _).
  apply H; simpl; lia.
Defined.

(** C2, at the input where the code departs from it.  In
    [two_accounts_one_person] accounts 0 and 1 belong to the same person
    (person 0), at banks 0 and 1.  A transfer of 50 from account 0 to
    account 1 does not raise: it returns, account 0 goes from 100 to 45 and
    account 1 from 0 to 50, and both histories and both bank lists get the
    transaction. *)
Theorem transfer_between_accounts_of_one_person :
  Account.person <$> accounts two_accounts_one_person !! 0%nat = Some 0%nat
  /\ Account.person <$> accounts two_accounts_one_person !! 1%nat = Some 0%nat
  /\ Account._balance <$> accounts two_accounts_one_person = [100; 0]
  /\ exists h',
       Account_transfer 0 50 1 day two_accounts_one_person = Ret tt h'
       /\ Account._balance <$> accounts h' = [45; 50]
       /\ length <$> (Account.transactions <$> accounts h') = [2; 1]%nat
       /\ length <$> (Bank.transactions <$> banks h') = [2; 1]%nat.
Proof.
  do 3 (split; [reflexivity|]).
  eexists. split; [vm_compute; reflexivity|].
  by vm_compute.
Qed.

(** C3, at the input where the code departs from it.  In [two_banks]
    account 0 (balance 100, bank 0) transfers 0 to account 1 (bank 1).  The
    debit [withdraw(0 + 5)] is made and the transaction is appended to the
    receiver's bank before [deposit(0)] raises: the call raises
    [TransactionError] and leaves account 0 at 95 and one more transaction
    in the list of bank 1. *)
Theorem transfer_raises_after_debit :
  Account._balance <$> accounts two_banks = [100; 0]
  /\ length <$> (Bank.transactions <$> banks two_banks) = [1; 0]%nat
  /\ exists h',
       Account_transfer 0 0 1 day two_banks = Raise TransactionError h'
       /\ Account._balance <$> accounts h' = [95; 0]
       /\ length <$> (Bank.transactions <$> banks h') = [1; 1]%nat
       /\ h' <> two_banks.
Proof.
  do 2 (split; [reflexivity|]).
  eexists. split; [vm_compute; reflexivity|].
  split; [reflexivity|]. split; [reflexivity|].
  intros H. discriminate H.
Qed.

(** ** Persons *)

Lemma Person_init_invalid h first_name last_name a :
  a <= 0 -> Person_init first_name last_name a h = Raise PersonError h.
Proof.
  intros Ha. unfold Person_init.
  by destruct (Z.leb_spec 1 a); [lia|].
Qed.

Lemma Person_init_valid h first_name last_name a :
  1 <= a ->
  exists h',
    Person_init first_name last_name a h = Ret (length (persons h)) h'
    /\ Person_age (length (persons h)) h' = Ret a h'.
Proof.
  intros Ha. unfold Person_init.
  destruct (Z.leb_spec 1 a); [|lia].
  eexists. split; [reflexivity|].
  unfold Person_age. unfold_m.
  rewrite lookup_app_r by done. by rewrite Nat.sub_diag.
Qed.

(** The setter stores the value whatever it is, and raises afterwards when
    it is not positive. *)
Lemma Person_age_setter_eq h self x value :
  persons h !! self = Some x ->
  Person_age_setter self value h
  = let h' := mkHeap (<[self := with_age value x]> (persons h))
                     (banks h) (accounts h) in
    if value <=? 0 then Raise PersonError h' else Ret tt h'.
Proof.
  intros E. unfold Person_age_setter. unfold_m. rewrite E. simpl.
  rewrite list_lookup_insert_eq by (by eapply lookup_lt_Some). simpl.
  by destruct (value <=? 0).
Qed.

Lemma Person_age_after_setter h self x value e h' :
  persons h !! self = Some x ->
  Person_age_setter self value h = Raise e h' ->
  value <= 0 /\ e = PersonError /\ Person_age self h' = Ret value h'.
Proof.
  intros E. rewrite (Person_age_setter_eq _ _ _ _ E). simpl.
  destruct (Z.leb_spec value 0); [|done].
  intros [= <- <-]. split; [done|]. split; [done|].
  unfold Person_age. unfold_m.
  rewrite list_lookup_insert_eq by (by eapply lookup_lt_Some). done.
Qed.

Lemma Person_age_setter_valid h self x value :
  persons h !! self = Some x ->
  1 <= value ->
  exists h', Person_age_setter self value h = Ret tt h'
             /\ Person_age self h' = Ret value h'.
Proof.
  intros E Hv. rewrite (Person_age_setter_eq _ _ _ _ E). simpl.
  destruct (Z.leb_spec value 0); [lia|].
  eexists. split; [done|].
  unfold Person_age. unfold_m.
  rewrite list_lookup_insert_eq by (by eapply lookup_lt_Some). done.
Qed.

(** C5, at the input where the code departs from it.  A person is
    constructed with age 30; setting the age to -1 raises [PersonError],
    but the age read afterwards is -1, not 30: the setter assigns the field
    before it tests the value. *)
Theorem age_setter_keeps_invalid_age :
  exists p h,
    Person_init "Anna" "Tamm" 30 empty_heap = Ret p h
    /\ Person_age p h = Ret 30 h
    /\ exists h',
         Person_age_setter p (-1) h = Raise PersonError h'
         /\ Person_age p h' = Ret (-1) h'.
Proof.
  do 2 eexists. split; [reflexivity|]. split; [reflexivity|].
  eexists. split; reflexivity.
Qed.

(** ** Customers *)

Lemma Bank_add_customer_eq h self person rnd bk x :
  banks h !! self = Some bk ->
  persons h !! person = Some x ->
  Bank_add_customer self person rnd h
  = if bool_decide (person ∈ Bank.customers bk)
    then Ret false h
    else Ret true
           (mkHeap
              (<[person := with_bank_account (Some (length (accounts h))) x]>
                 (persons h))
              (<[self := with_customers (Bank.customers bk ++ [person]) bk]>
                 (banks h))
              (accounts h
               ++ [Account.mk 0 person self [] ("EE" +:+ pretty rnd)])).
Proof.
  intros Eb Ep. unfold Bank_add_customer, Account_init. unfold_m.
  rewrite Eb. destruct (bool_decide (person ∈ Bank.customers bk)); simpl; [done|].
  rewrite Ep. simpl. by rewrite Eb.
Qed.

(** C9.  [Bank.add_customer(person)] returns [False] and changes nothing
    when the person is already in the list of customers of the bank.
    Otherwise it returns [True], one account with balance 0 (and an empty
    history) for this person at this bank is added to the store,
    [person.bank_account] refers to it, and the person is appended once to
    the customers; nothing else changes.  Calling it again then returns
    [False] and changes nothing, the list of customers grows by at most one
    per call, and it stays free of duplicates. *)
Theorem Bank_add_customer_spec h self person rnd bk x :
  banks h !! self = Some bk ->
  persons h !! person = Some x ->
  let res := Bank_add_customer self person rnd h in
  (person ∈ Bank.customers bk -> res = Ret false h)
  /\ (person ∉ Bank.customers bk ->
      exists h',
        res = Ret true h'
        /\ accounts h'
           = accounts h ++ [Account.mk 0 person self [] ("EE" +:+ pretty rnd)]
        /\ persons h' !! person
           = Some (Person.mk (Person.first_name x) (Person.last_name x)
                     (Person._age x) (Some (length (accounts h))))
        /\ (forall p, p <> person -> persons h' !! p = persons h !! p)
        /\ banks h' !! self
           = Some (Bank.mk (Bank.name bk) (Bank.customers bk ++ [person])
                     (Bank.transactions bk))
        /\ (forall b, b <> self -> banks h' !! b = banks h !! b))
  /\ (exists ok h1 bk1,
        res = Ret ok h1
        /\ banks h1 !! self = Some bk1
        /\ (forall rnd', Bank_add_customer self person rnd' h1 = Ret false h1)
        /\ (length (Bank.customers bk1) <= S (length (Bank.customers bk)))%nat
        /\ (NoDup (Bank.customers bk) -> NoDup (Bank.customers bk1))).
Proof.
  intros Eb Ep res. subst res.
  rewrite (Bank_add_customer_eq _ _ _ rnd _ _ Eb Ep).
  assert (Hlb : (self < length (banks h))%nat) by (by eapply lookup_lt_Some).
  assert (Hlp : (person < length (persons h))%nat) by (by eapply lookup_lt_Some).
  case_bool_decide as Hin.
  - split; [done|]. split; [done|].
    exists false, h, bk. split; [done|]. split; [done|].
    split; [|split; [lia | done]].
    intros rnd'. rewrite (Bank_add_customer_eq _ _ _ rnd' _ _ Eb Ep).
    by rewrite bool_decide_eq_true_2.
  - split; [done|]. split.
    + intros _. eexists. split; [done|]. simpl.
      split; [done|]. split; [by apply list_lookup_insert_eq|].
      split; [intros p Hp; by apply list_lookup_insert_ne|].
      split; [by apply list_lookup_insert_eq|].
      intros b Hb. by apply list_lookup_insert_ne.
    + do 3 eexists. split; [done|]. simpl.
      split; [by apply list_lookup_insert_eq|].
      split; [|split].
      * intros rnd'.
        erewrite Bank_add_customer_eq;
          [| simpl; by apply list_lookup_insert_eq
           | simpl; by apply list_lookup_insert_eq].
        simpl. rewrite bool_decide_eq_true_2; [done|].
        apply elem_of_app. right. by apply list_elem_of_singleton.
      * simpl. rewrite length_app. simpl. lia.
      * simpl. intros Hnd. apply NoDup_app. split; [done|].
        split; [|apply NoDup_singleton].
        intros y Hy Hy'. apply list_elem_of_singleton in Hy'. by subst.
Qed.

Lemma Bank_add_customer_spec_witness :
  Bank_add_customer 0 0 100000000000000002 one_customer
  = Ret false one_customer.
Proof.
  destruct (Bank_add_customer_spec one_customer 0 0 100000000000000002
              (Bank.mk "Swed" [0%nat] [Transaction.mk 100 day 0 0 true])
              (Person.mk "Anna" "Tamm" 30 (Some 0%nat))
              eq_refl eq_refl) as (H & _).
  apply H. simpl.
  apply (bool_decide_unpack (0%nat ∈ [0%nat])). vm_compute. exact I.
Defined.

(** C10.  When a bank adds a person who is a customer of another bank (and
    not yet its own), [add_customer] returns [True]; [person.bank_account]
    then refers to a new account with balance 0 at the second bank, the first
    bank is unchanged (the person is still among its customers), and the
    account the person had before is still in the store with the balance
    and the history it had. *)
Theorem Bank_add_customer_second_bank h b1 b2 person rnd bk1 bk2 x a1 acc1 :
  b1 <> b2 ->
  banks h !! b1 = Some bk1 ->
  banks h !! b2 = Some bk2 ->
  persons h !! person = Some x ->
  person ∈ Bank.customers bk1 ->
  person ∉ Bank.customers bk2 ->
  Person.bank_account x = Some a1 ->
  accounts h !! a1 = Some acc1 ->
  exists h' a2,
    Bank_add_customer b2 person rnd h = Ret true h'
    /\ a2 <> a1
    /\ Person.bank_account <$> persons h' !! person = Some (Some a2)
    /\ accounts h' !! a2
       = Some (Account.mk 0 person b2 [] ("EE" +:+ pretty rnd))
    /\ banks h' !! b1 = Some bk1
    /\ person ∈ Bank.customers bk1
    /\ accounts h' !! a1 = Some acc1.
Proof.
  intros Hne Eb1 Eb2 Ep Hin1 Hin2 Ea Eacc.
  rewrite (Bank_add_customer_eq _ _ _ rnd _ _ Eb2 Ep).
  rewrite bool_decide_eq_false_2 by done.
  assert (Hl : (a1 < length (accounts h))%nat) by (by eapply lookup_lt_Some).
  exists (mkHeap
            (<[person := with_bank_account (Some (length (accounts h))) x]>
               (persons h))
            (<[b2 := with_customers (Bank.customers bk2 ++ [person]) bk2]>
               (banks h))
            (accounts h
             ++ [Account.mk 0 person b2 [] ("EE" +:+ pretty rnd)])),
         (length (accounts h)).
  split; [done|]. split; [lia|]. simpl.
  split.
  { rewrite list_lookup_insert_eq by (by eapply lookup_lt_Some). done. }
  split.
  { rewrite lookup_app_r by done. by rewrite Nat.sub_diag. }
  split; [by rewrite list_lookup_insert_ne|].
  split; [done|]. by apply lookup_app_l_Some.
Qed.

Lemma Bank_add_customer_second_bank_witness :
  exists h',
    Bank_add_customer 1 0 100000000000000002 one_customer = Ret true h'
    /\ Account._balance <$> accounts h' = [100; 0].
Proof.
  destruct (Bank_add_customer_second_bank one_customer 0 1 0
              100000000000000002
              (Bank.mk "Swed" [0%nat] [Transaction.mk 100 day 0 0 true])
              (Bank.mk "SEB" [] [])
              (Person.mk "Anna" "Tamm" 30 (Some 0%nat)) 0
              (Account.mk 100 0 0 [Transaction.mk 100 day 0 0 true]
                 "EE100000000000000001"))
    as (h' & a2 & H & _).
  - lia.
  - reflexivity.
  - reflexivity.
  - reflexivity.
  - simpl. apply (bool_decide_unpack (0%nat ∈ [0%nat])). vm_compute. exact I.
  - simpl. apply (bool_decide_unpack (0%nat ∉ [])). vm_compute. exact I.
  - reflexivity.
  - reflexivity.
  - exists h'. split; [exact H|].
    vm_compute in H. injection H as <-. reflexivity.
Defined.

(** ** Sequences of calls *)

Lemma exec_inv c h :
  heap_wf h ->
  call_in h c ->
  exists h',
    exec c h = Some h'
    /\ heap_wf h'
    /\ length (accounts h') = length (accounts h)
    /\ (balances_nonneg h -> balances_nonneg h')
    /\ (histories_ok h -> histories_ok h').
Proof.
  intros Hwf Hin. destruct c as [a amount atm today|a amount atm today
                                |a amount b today]; simpl in Hin |- *.
  - apply lookup_lt_is_Some_2 in Hin as [x Ex].
    pose proof (Forall_lookup_1 _ _ _ _ Hwf Ex) as Hb. simpl in Hb.
    apply lookup_lt_is_Some_2 in Hb as [bk Eb].
    destruct atm.
    + rewrite (deposit_atm_eq _ _ _ _ _ _ Ex Eb).
      destruct (Z.leb_spec amount 0); simpl; eexists; (split; [done|]).
      * by repeat split.
      * repeat split; [solve_inv | simpl; by rewrite !length_insert
                      | intros; solve_inv | intros; solve_inv].
    + rewrite (deposit_internal_eq _ _ _ _ _ Ex).
      destruct (Z.leb_spec amount 0); simpl; eexists; (split; [done|]).
      * by repeat split.
      * repeat split; [solve_inv | simpl; by rewrite !length_insert
                      | intros; solve_inv | intros; solve_inv].
  - apply lookup_lt_is_Some_2 in Hin as [x Ex].
    pose proof (Forall_lookup_1 _ _ _ _ Hwf Ex) as Hb. simpl in Hb.
    apply lookup_lt_is_Some_2 in Hb as [bk Eb].
    destruct atm.
    + rewrite (withdraw_atm_eq _ _ _ _ _ _ Ex Eb).
      destruct (Z.leb_spec amount 0); simpl;
        [eexists; split; [done|]; by repeat split|].
      destruct (Z.ltb_spec (Account._balance x) amount); simpl;
        eexists; (split; [done|]).
      * by repeat split.
      * repeat split; [solve_inv | simpl; by rewrite !length_insert
                      | intros; solve_inv | intros; solve_inv].
    + rewrite (withdraw_internal_eq _ _ _ _ _ Ex).
      destruct (Z.leb_spec amount 0); simpl;
        [eexists; split; [done|]; by repeat split|].
      destruct (Z.ltb_spec (Account._balance x) amount); simpl;
        eexists; (split; [done|]).
      * by repeat split.
      * repeat split; [solve_inv | simpl; by rewrite !length_insert
                      | intros; solve_inv | intros; solve_inv].
  - destruct Hin as [Ha Hb].
    apply lookup_lt_is_Some_2 in Ha as [s Es].
    apply lookup_lt_is_Some_2 in Hb as [r Er].
    pose proof (Forall_lookup_1 _ _ _ _ Hwf Es) as Hbs. simpl in Hbs.
    pose proof (Forall_lookup_1 _ _ _ _ Hwf Er) as Hbr. simpl in Hbr.
    apply lookup_lt_is_Some_2 in Hbs as [bks Ebs].
    apply lookup_lt_is_Some_2 in Hbr as [bkr Ebr].
    rewrite (transfer_eq _ _ _ amount today _ _ _ _ Es Er Ebs Ebr). simpl.
    destruct (b =? a)%nat; simpl;
      [eexists; split; [done|]; by repeat split|].
    destruct (Account.bank s =? Account.bank r)%nat.
    + destruct (Z.leb_spec amount 0); simpl;
        [eexists; split; [done|]; by repeat split|].
      destruct (Z.ltb_spec (Account._balance s) amount); simpl;
        eexists; (split; [done|]).
      * by repeat split.
      * repeat split; [solve_inv | simpl; by rewrite !length_insert
                      | intros; solve_inv | intros; solve_inv].
    + destruct (Z.leb_spec (amount + 5) 0); simpl;
        [eexists; split; [done|]; by repeat split|].
      destruct (Z.ltb_spec (Account._balance s) (amount + 5)); simpl;
        [eexists; split; [done|]; by repeat split|].
      destruct (Z.leb_spec amount 0); simpl; eexists; (split; [done|]).
      * repeat split; [solve_inv | simpl; by rewrite !length_insert
                      | intros; solve_inv | intros; solve_inv].
      * repeat split; [solve_inv | simpl; by rewrite !length_insert
                      | intros; solve_inv | intros; solve_inv].
Qed.

Lemma call_in_length h h' c :
  length (accounts h') = length (accounts h) -> call_in h c -> call_in h' c.
Proof. intros E. destruct c; simpl; rewrite E; done. Qed.

Lemma run_inv cs : forall h,
  heap_wf h ->
  Forall (call_in h) cs ->
  exists h',
    run cs h = Some h'
    /\ heap_wf h'
    /\ length (accounts h') = length (accounts h)
    /\ (balances_nonneg h -> balances_nonneg h')
    /\ (histories_ok h -> histories_ok h').
Proof.
  induction cs as [|c cs IH]; intros h Hwf Hin.
  - exists h. by repeat split.
  - apply Forall_cons in Hin as [Hc Hcs].
    destruct (exec_inv c h Hwf Hc) as (h1 & E1 & Hwf1 & Hl1 & Hn1 & Hh1).
    destruct (IH h1 Hwf1) as (h2 & E2 & Hwf2 & Hl2 & Hn2 & Hh2).
    { eapply Forall_impl; [exact Hcs|]. intros c'. by apply call_in_length. }
    exists h2. simpl. rewrite E1.
    split; [done|]. split; [done|]. split; [congruence|]. split; auto.
Qed.

(** C6.  From a store in which every balance is non-negative, every
    sequence of calls of [deposit], [withdraw] and [transfer] on accounts of
    the store runs to its end, whether the calls return or raise, and leaves
    every balance non-negative. *)
Theorem balances_never_negative cs h :
  heap_wf h ->
  balances_nonneg h ->
  Forall (call_in h) cs ->
  exists h',
    run cs h = Some h'
    /\ forall a x, accounts h' !! a = Some x -> 0 <= Account._balance x.
Proof.
  intros Hwf Hn Hin.
  destruct (run_inv cs h Hwf Hin) as (h' & E & _ & _ & Hn' & _).
  exists h'. split; [done|]. intros a x Ex.
  exact (Forall_lookup_1 _ _ _ _ (Hn' Hn) Ex).
Qed.

Lemma balances_never_negative_witness :
  exists h',
    run [Withdraw 0 500 true day; Transfer 0 0 1 day; Transfer 0 95 1 day;
         Transfer 0 90 1 day; Deposit 1 (-3) true day; Withdraw 1 90 true day]
        two_banks = Some h'
    /\ forall a x, accounts h' !! a = Some x -> 0 <= Account._balance x.
Proof.
  apply balances_never_negative.
  - repeat constructor.
  - repeat constructor; simpl; lia.
  - repeat constructor; simpl; lia.
Defined.

Example balances_after_calls :
  option_map (fun h => Account._balance <$> accounts h)
    (run [Withdraw 0 500 true day; Transfer 0 0 1 day; Transfer 0 95 1 day;
          Transfer 0 90 1 day; Deposit 1 (-3) true day; Withdraw 1 90 true day]
         two_banks)
  = Some [0; 0].
Proof. reflexivity. Qed.

(** ** Turnover *)

(** The test of the loops is true exactly on the dates of the period, both
    ends included. *)
Lemma in_period_iff from_date to_date i :
  in_period from_date to_date i = true
  <-> from_date <= Transaction.date i <= to_date.
Proof.
  unfold in_period. rewrite andb_true_iff, !Z.leb_le. done.
Qed.

Lemma filter_in_period from_date to_date (l : list Transaction.t) :
  filter (fun i => in_period from_date to_date i = true) l
  = filter (fun i => from_date <= Transaction.date i <= to_date) l.
Proof. apply list_filter_iff. intros i. apply in_period_iff. Qed.

(** On a history in which every transaction not from an ATM has a positive
    amount, the loop of [get_credit_turnover] computes the credit turnover
    as the spec words it. *)
Lemma credit_loop_spec self from_date to_date l : forall counter,
  Forall tx_ok l ->
  fold_left (credit_step self from_date to_date) l counter
  = counter + credit_turnover_spec self from_date to_date l.
Proof.
  unfold credit_turnover_spec. rewrite <- filter_in_period.
  induction l as [|i l IH]; intros counter Hok; simpl.
  - lia.
  - apply Forall_cons in Hok as [Hi Hl].
    rewrite (IH _ Hl). rewrite filter_cons.
    unfold credit_step, outgoing, tx_ok in *.
    destruct (in_period from_date to_date i) eqn:Hp.
    + rewrite decide_True by done. simpl.
      destruct (Transaction.is_from_atm i) eqn:Hatm.
      * rewrite andb_false_r, orb_false_r.
        destruct (Z.ltb_spec (Transaction.amount i) 0); lia.
      * specialize (Hi eq_refl). rewrite andb_true_r.
        destruct (Z.ltb_spec (Transaction.amount i) 0); [lia|]. simpl.
        destruct (self =? Transaction.sender_account i)%nat; lia.
    + rewrite decide_False by (by intros ?). lia.
Qed.

(** The hypothesis on the history is needed: the loop tests [i.amount < 0]
    without looking at [is_from_atm], so it would count a transaction with a
    negative amount that is not from an ATM and that another account sent.
    No method writes such a transaction into a history. *)
Example credit_loop_on_foreign_history :
  fold_left (credit_step 0 day day) [Transaction.mk (-7) day 1 0 false] 0 = -7
  /\ credit_turnover_spec 0 day day [Transaction.mk (-7) day 1 0 false] = 0.
Proof. split; reflexivity. Qed.

(** The loops only look at the transactions of the period. *)
Lemma debit_loop_filter self from_date to_date l : forall counter,
  fold_left (debit_step self from_date to_date) l counter
  = fold_left (debit_step self from_date to_date)
      (filter (fun i => in_period from_date to_date i = true) l) counter.
Proof.
  induction l as [|i l IH]; intros counter; [done|].
  rewrite filter_cons. simpl.
  destruct (in_period from_date to_date i) eqn:Hp.
  - rewrite decide_True by done. simpl. apply IH.
  - rewrite decide_False by (by intros ?).
    unfold debit_step at 2. rewrite Hp. apply IH.
Qed.

Lemma credit_loop_filter self from_date to_date l : forall counter,
  fold_left (credit_step self from_date to_date) l counter
  = fold_left (credit_step self from_date to_date)
      (filter (fun i => in_period from_date to_date i = true) l) counter.
Proof.
  induction l as [|i l IH]; intros counter; [done|].
  rewrite filter_cons. simpl.
  destruct (in_period from_date to_date i) eqn:Hp.
  - rewrite decide_True by done. simpl. apply IH.
  - rewrite decide_False by (by intros ?).
    unfold credit_step at 2. rewrite Hp. apply IH.
Qed.

Lemma net_turnover_eq h self x from_date to_date :
  accounts h !! self = Some x ->
  Account_get_net_turnover self from_date to_date h
  = Ret (fold_left (debit_step self from_date to_date)
           (Account.transactions x) 0
         + fold_left (credit_step self from_date to_date)
             (Account.transactions x) 0) h.
Proof.
  intros E. unfold Account_get_net_turnover, Account_get_debit_turnover,
    Account_get_credit_turnover. unfold_m.
  rewrite E. simpl. by rewrite E.
Qed.

(** C8.  For every account and period, [get_net_turnover] is the sum of
    [get_debit_turnover] and [get_credit_turnover] over that period.  The
    transactions of the period are those of the history whose date [d]
    satisfies [from_date <= d <= to_date].  On every history written by
    [deposit], [withdraw] and [transfer], the credit turnover is the sum,
    as a negative number, of the ATM withdrawals (the ATM transactions with
    a negative amount) of the period and of the transactions of the period
    not from an ATM that the account sent.  When the transactions of the
    period are one ATM deposit of 100 and one ATM withdrawal of 30 on the
    account, in either order, the net turnover is 70, whatever the history
    holds outside the period. *)
Theorem Account_get_net_turnover_spec :
  (forall h self x from_date to_date,
     accounts h !! self = Some x ->
     exists d c,
       Account_get_debit_turnover self from_date to_date h = Ret d h
       /\ Account_get_credit_turnover self from_date to_date h = Ret c h
       /\ Account_get_net_turnover self from_date to_date h = Ret (d + c) h)
  /\ (forall h0 cs h self x from_date to_date,
        heap_wf h0 ->
        histories_ok h0 ->
        Forall (call_in h0) cs ->
        run cs h0 = Some h ->
        accounts h !! self = Some x ->
        Account_get_credit_turnover self from_date to_date h
        = Ret (credit_turnover_spec self from_date to_date
                 (Account.transactions x)) h)
  /\ (forall h self x from_date to_date d1 d2,
        accounts h !! self = Some x ->
        filter (fun i => from_date <= Transaction.date i <= to_date)
          (Account.transactions x)
        ≡ₚ [Transaction.mk 100 d1 self self true;
            Transaction.mk (-30) d2 self self true] ->
        Account_get_net_turnover self from_date to_date h = Ret 70 h).
Proof.
  split; [|split].
  - intros h self x from_date to_date E.
    exists (fold_left (debit_step self from_date to_date)
              (Account.transactions x) 0),
           (fold_left (credit_step self from_date to_date)
              (Account.transactions x) 0).
    rewrite (net_turnover_eq _ _ _ _ _ E).
    unfold Account_get_debit_turnover, Account_get_credit_turnover.
    unfold_m. rewrite E. done.
  - intros h0 cs h self x from_date to_date Hwf Hok Hin Hrun E.
    destruct (run_inv cs h0 Hwf Hin) as (h' & E' & _ & _ & _ & Hh).
    rewrite Hrun in E'. injection E' as <-.
    pose proof (Forall_lookup_1 _ _ _ _ (Hh Hok) E) as Hx. simpl in Hx.
    unfold Account_get_credit_turnover. unfold_m. rewrite E.
    by rewrite (credit_loop_spec _ _ _ _ _ Hx).
  - intros h self x from_date to_date d1 d2 E Hp.
    rewrite <- filter_in_period in Hp.
    rewrite (net_turnover_eq _ _ _ _ _ E).
    rewrite debit_loop_filter, credit_loop_filter.
    symmetry in Hp. apply Permutation_length_2_inv in Hp.
    assert (Hd1 : in_period from_date to_date
                    (Transaction.mk 100 d1 self self true) = true).
    { assert (Transaction.mk 100 d1 self self true
              ∈ filter (fun i => in_period from_date to_date i = true)
                  (Account.transactions x)) as Hin
        by (destruct Hp as [-> | ->]; repeat constructor).
      by apply list_elem_of_filter in Hin as [? _]. }
    assert (Hd2 : in_period from_date to_date
                    (Transaction.mk (-30) d2 self self true) = true).
    { assert (Transaction.mk (-30) d2 self self true
              ∈ filter (fun i => in_period from_date to_date i = true)
                  (Account.transactions x)) as Hin
        by (destruct Hp as [-> | ->]; repeat constructor).
      by apply list_elem_of_filter in Hin as [? _]. }
    destruct Hp as [-> | ->]; simpl; unfold debit_step, credit_step;
      rewrite ?Hd1, ?Hd2; simpl; rewrite ?andb_false_r; done.
Qed.

Lemma Account_get_net_turnover_spec_witness :
  exists h,
    run [Deposit 0 100 true day; Withdraw 0 30 true day;
         Deposit 0 5 true (day + 40)] new_customer = Some h
    /\ Account_get_credit_turnover 0 day (day + 30) h = Ret (-30) h
    /\ Account_get_net_turnover 0 day (day + 30) h = Ret 70 h.
Proof.
  destruct Account_get_net_turnover_spec as (_ & Hc & Hn).
  exists (mkHeap
            [Person.mk "Anna" "Tamm" 30 (Some 0%nat)]
            [Bank.mk "Swed" [0%nat]
               [Transaction.mk 100 day 0 0 true;
                Transaction.mk (-30) day 0 0 true;
                Transaction.mk 5 (day + 40) 0 0 true]]
            [Account.mk 75 0 0
               [Transaction.mk 100 day 0 0 true;
                Transaction.mk (-30) day 0 0 true;
                Transaction.mk 5 (day + 40) 0 0 true]
               "EE100000000000000001"]).
  split; [reflexivity|]. split.
  - apply (Hc new_customer
             [Deposit 0 100 true day; Withdraw 0 30 true day;
              Deposit 0 5 true (day + 40)] _ 0%nat
             (Account.mk 75 0 0
                [Transaction.mk 100 day 0 0 true;
                 Transaction.mk (-30) day 0 0 true;
                 Transaction.mk 5 (day + 40) 0 0 true]
                "EE100000000000000001") day (day + 30)).
    + repeat constructor.
    + repeat constructor.
    + repeat constructor; simpl; lia.
    + reflexivity.
    + reflexivity.
  - eapply (Hn _ 0%nat _ day (day + 30) day day); [reflexivity|].
    vm_compute. reflexivity.
Defined.

(** A period that starts after the dates of the history holds none of its
    transactions: both turnovers are 0. *)
Example turnover_outside_period :
  Account_get_debit_turnover 0 (day + 1) (day + 30) two_banks
  = Ret 0 two_banks
  /\ Account_get_net_turnover 0 (day + 1) (day + 30) two_banks
     = Ret 0 two_banks
  /\ Account_get_net_turnover 0 (day - 30) day two_banks
     = Ret 100 two_banks.
Proof. repeat split; reflexivity. Qed.

(** * The rest of the ledger *)

(** ** Deposits and withdrawals *)

Lemma deposit_any_eq h a x bk amount is_from_atm today :
  accounts h !! a = Some x ->
  banks h !! Account.bank x = Some bk ->
  Account_deposit a amount is_from_atm today h
  = let new := if is_from_atm
               then [Transaction.mk amount today a a true] else [] in
    if amount <=? 0
    then Raise TransactionError h
    else Ret tt (mkHeap (persons h)
                   (<[Account.bank x :=
                        Bank.mk (Bank.name bk) (Bank.customers bk)
                          (Bank.transactions bk ++ new)]> (banks h))
                   (<[a := Account.mk (Account._balance x + amount)
                             (Account.person x) (Account.bank x)
                             (Account.transactions x ++ new)
                             (Account.number x)]> (accounts h))).
Proof.
  intros Ex Eb. destruct is_from_atm.
  - by rewrite (deposit_atm_eq _ _ _ _ _ _ Ex Eb).
  - rewrite (deposit_internal_eq _ _ _ _ _ Ex). simpl.
    destruct (amount <=? 0); [done|].
    rewrite !app_nil_r. f_equal. f_equal.
    symmetry. apply list_insert_id. by destruct bk.
Qed.

Lemma withdraw_any_eq h a x bk amount is_from_atm today :
  accounts h !! a = Some x ->
  banks h !! Account.bank x = Some bk ->
  Account_withdraw a amount is_from_atm today h
  = let new := if is_from_atm
               then [Transaction.mk (- amount) today a a true] else [] in
    if (amount <=? 0) || (Account._balance x <? amount)
    then Raise TransactionError h
    else Ret tt (mkHeap (persons h)
                   (<[Account.bank x :=
                        Bank.mk (Bank.name bk) (Bank.customers bk)
                          (Bank.transactions bk ++ new)]> (banks h))
                   (<[a := Account.mk (Account._balance x - amount)
                             (Account.person x) (Account.bank x)
                             (Account.transactions x ++ new)
                             (Account.number x)]> (accounts h))).
Proof.
  intros Ex Eb. destruct is_from_atm.
  - by rewrite (withdraw_atm_eq _ _ _ _ _ _ Ex Eb).
  - rewrite (withdraw_internal_eq _ _ _ _ _ Ex). simpl.
    destruct ((amount <=? 0) || (Account._balance x <? amount)); [done|].
    rewrite !app_nil_r. f_equal. f_equal.
    symmetry. apply list_insert_id. by destruct bk.
Qed.

(** X1.  [Account.deposit(amount)] raises [TransactionError] exactly when
    [amount <= 0], and then the store is unchanged.  Otherwise it returns,
    the balance is higher by exactly [amount], and when the call is flagged
    as coming from an ATM one transaction from the account to itself with
    the amount deposited is appended to the history of the account and to
    the list of its bank (none when it is not flagged); every other object
    is unchanged. *)
Theorem Account_deposit_spec h self x bk amount is_from_atm today :
  accounts h !! self = Some x ->
  banks h !! Account.bank x = Some bk ->
  let res := Account_deposit self amount is_from_atm today h in
  let new := if is_from_atm
             then [Transaction.mk amount today self self true]
             else [] in
  ((exists e h', res = Raise e h') <-> amount <= 0)
  /\ (amount <= 0 -> res = Raise TransactionError h)
  /\ (0 < amount ->
      exists h',
        res = Ret tt h'
        /\ persons h' = persons h
        /\ accounts h' !! self
           = Some (Account.mk (Account._balance x + amount) (Account.person x)
                     (Account.bank x) (Account.transactions x ++ new)
                     (Account.number x))
        /\ (forall a, a <> self -> accounts h' !! a = accounts h !! a)
        /\ banks h' !! Account.bank x
           = Some (Bank.mk (Bank.name bk) (Bank.customers bk)
                     (Bank.transactions bk ++ new))
        /\ (forall b, b <> Account.bank x -> banks h' !! b = banks h !! b)).
Proof.
  intros Ex Eb res new. subst res new.
  rewrite (deposit_any_eq _ _ _ _ _ _ _ Ex Eb). simpl.
  destruct (Z.leb_spec amount 0) as [Ha|Ha].
  { split; [|split]; [| done | lia].
    split; [done | intros _; by do 2 eexists]. }
  split; [|split].
  - split; [intros (e & h' & [=]) | lia].
  - lia.
  - intros _. eexists. split; [done|]. simpl.
    split; [done|]. split; [|split; [|split]].
    + apply list_lookup_insert_eq. by eapply lookup_lt_Some.
    + intros a Ha'. by apply list_lookup_insert_ne.
    + apply list_lookup_insert_eq. by eapply lookup_lt_Some.
    + intros b Hb'. by apply list_lookup_insert_ne.
Qed.

Lemma Account_deposit_spec_witness :
  exists h',
    Account_deposit 1 100 true day two_banks = Ret tt h'
    /\ Account._balance <$> accounts h' !! 1%nat = Some 100
    /\ length <$> (Account.transactions <$> accounts h' !! 1%nat) = Some 1%nat.
Proof.
  destruct (Account_deposit_spec two_banks 1
              (Account.mk 0 1 1 [] "EE100000000000000002")
              (Bank.mk "SEB" [1%nat] [])
              100 true day eq_refl eq_refl) as (_ & _ & H).
  destruct H as (h' & Hr & _ & Ha & _); [simpl; lia|].
  exists h'. split; [exact Hr|]. rewrite Ha. split; reflexivity.
Defined.

(** X2.  With integer balances and amounts (Python [int], where [+] and
    [-] are exact): on an account whose balance is not negative, a deposit
    of a positive amount followed by a withdrawal of the same amount never
    raises and gives the balance back; owner, bank and number of the
    account are as before and no other account changes.  The history is
    not restored: each of the two calls that is flagged as coming from an
    ATM has left one transaction in it. *)
Theorem deposit_then_withdraw h self x bk amount atm1 atm2 day1 day2 :
  accounts h !! self = Some x ->
  banks h !! Account.bank x = Some bk ->
  0 < amount ->
  0 <= Account._balance x ->
  exists h',
    (Account_deposit self amount atm1 day1 ;;
     Account_withdraw self amount atm2 day2) h = Ret tt h'
    /\ accounts h' !! self
       = Some (Account.mk (Account._balance x) (Account.person x)
                 (Account.bank x)
                 (Account.transactions x
                  ++ (if atm1
                      then [Transaction.mk amount day1 self self true]
                      else [])
                  ++ (if atm2
                      then [Transaction.mk (- amount) day2 self self true]
                      else []))
                 (Account.number x))
    /\ (forall a, a <> self -> accounts h' !! a = accounts h !! a).
Proof.
  intros Ex Eb Ha Hbal.
  assert (Hl : (self < length (accounts h))%nat) by (by eapply lookup_lt_Some).
  assert (Hlb : (Account.bank x < length (banks h))%nat)
    by (by eapply lookup_lt_Some).
  unfold bind at 1.
  rewrite (deposit_any_eq _ _ _ _ _ _ _ Ex Eb). simpl.
  destruct (Z.leb_spec amount 0); [lia|].
  erewrite withdraw_any_eq;
    [| simpl; by apply list_lookup_insert_eq
     | simpl; by apply list_lookup_insert_eq].
  simpl.
  destruct (Z.leb_spec amount 0); [lia|].
  destruct (Z.ltb_spec (Account._balance x + amount) amount); [lia|]. simpl.
  eexists. split; [done|]. simpl. split.
  - rewrite list_lookup_insert_eq by (by rewrite length_insert).
    rewrite <- app_assoc. do 2 f_equal. lia.
  - intros a Hne. by rewrite !list_lookup_insert_ne.
Qed.

Lemma deposit_then_withdraw_witness :
  exists h',
    (Account_deposit 1 40 true day ;; Account_withdraw 1 40 true day) two_banks
    = Ret tt h'
    /\ Account._balance <$> accounts h' !! 1%nat = Some 0.
Proof.
  destruct (deposit_then_withdraw two_banks 1
              (Account.mk 0 1 1 [] "EE100000000000000002")
              (Bank.mk "SEB" [1%nat] [])
              40 true true day day eq_refl eq_refl) as (h' & Hr & Ha & _).
  - lia.
  - simpl. lia.
  - exists h'. split; [exact Hr|]. rewrite Ha. reflexivity.
Defined.

(** ** The money in the store *)

Lemma total_insert (l : list Account.t) : forall a x y,
  l !! a = Some x ->
  foldr (fun x acc => Account._balance x + acc) 0 (<[a := y]> l)
  = foldr (fun x acc => Account._balance x + acc) 0 l
    - Account._balance x + Account._balance y.
Proof.
  induction l as [|z l IH]; intros a x y E; [done|].
  destruct a as [|a]; simpl in *.
  - injection E as ->. lia.
  - rewrite (IH _ _ _ E). lia.
Qed.

(** X3.  With integer balances and amounts (Python [int], where [+] and
    [-] are exact): a transfer that returns moves money without creating
    any: the total of all balances is unchanged when the two accounts are at the same
    bank, and is lower by exactly the fee of 5 when they are at different
    banks. *)
Theorem transfer_total_balance h self receiver_account amount today
    s r bks bkr h' :
  accounts h !! self = Some s ->
  accounts h !! receiver_account = Some r ->
  banks h !! Account.bank s = Some bks ->
  banks h !! Account.bank r = Some bkr ->
  Account_transfer self amount receiver_account today h = Ret tt h' ->
  total_balance h'
  = total_balance h - (if (Account.bank s =? Account.bank r)%nat then 0 else 5).
Proof.
  intros Es Er Ebs Ebr.
  rewrite (transfer_eq _ _ _ amount today _ _ _ _ Es Er Ebs Ebr). simpl.
  destruct (Nat.eqb_spec receiver_account self) as [Hrs|Hrs]; [done|].
  assert (Hsr : self <> receiver_account) by (intros ->; by apply Hrs).
  unfold total_balance.
  destruct (Account.bank s =? Account.bank r)%nat.
  - destruct ((amount <=? 0) || (Account._balance s <? amount)); [done|].
    intros [= <-]. simpl.
    erewrite total_insert by (rewrite list_lookup_insert_ne by done; exact Es).
    erewrite total_insert by exact Er. simpl. lia.
  - destruct ((amount + 5 <=? 0) || (Account._balance s <? amount + 5));
      [done|].
    destruct (amount <=? 0); [done|].
    intros [= <-]. simpl.
    erewrite total_insert by (rewrite list_lookup_insert_ne by done; exact Es).
    erewrite total_insert by exact Er. simpl. lia.
Qed.

Lemma transfer_total_balance_witness :
  total_balance (heap_of (Account_transfer 0 50 1 day two_banks)) = 95.
Proof.
  rewrite (transfer_total_balance two_banks 0 1 50 day
             (Account.mk 100 0 0 [Transaction.mk 100 day 0 0 true]
                "EE100000000000000001")
             (Account.mk 0 1 1 [] "EE100000000000000002")
             (Bank.mk "Swed" [0%nat] [Transaction.mk 100 day 0 0 true])
             (Bank.mk "SEB" [1%nat] [])
             (heap_of (Account_transfer 0 50 1 day two_banks))
             eq_refl eq_refl eq_refl eq_refl eq_refl).
  reflexivity.
Defined.

(** ** Statements and turnover *)

Lemma statement_loop from_date to_date (l : list Transaction.t) : forall acc,
  fold_left
    (fun account_statement_list i =>
       if in_period from_date to_date i
       then account_statement_list ++ [i]
       else account_statement_list) l acc
  = acc ++ filter (fun i => from_date <= Transaction.date i <= to_date) l.
Proof.
  induction l as [|i l IH]; intros acc; simpl.
  - by rewrite app_nil_r.
  - rewrite IH, filter_cons. unfold in_period.
    destruct (Z.leb_spec from_date (Transaction.date i));
      destruct (Z.leb_spec (Transaction.date i) to_date); simpl.
    + rewrite decide_True by lia. by rewrite <- app_assoc.
    + by rewrite decide_False by lia.
    + by rewrite decide_False by lia.
    + by rewrite decide_False by lia.
Qed.

(** X4.  [account_statement(from_date, to_date)] changes nothing and returns
    the transactions of the history of the account whose date [d] satisfies
    [from_date <= d <= to_date], both ends included, in the order of the
    history; in particular a transaction is in the statement if and only if
    it is in the history with such a date, and the statement of a period
    with [to_date < from_date] is empty. *)
Theorem Account_account_statement_spec h self x from_date to_date :
  accounts h !! self = Some x ->
  exists l,
    Account_account_statement self from_date to_date h = Ret l h
    /\ l = filter (fun i => from_date <= Transaction.date i <= to_date)
             (Account.transactions x)
    /\ l `sublist_of` Account.transactions x
    /\ (forall i, i ∈ l
          <-> i ∈ Account.transactions x
              /\ from_date <= Transaction.date i <= to_date)
    /\ (to_date < from_date -> l = []).
Proof.
  intros E. eexists. split.
  { unfold Account_account_statement. unfold_m. rewrite E.
    by rewrite statement_loop. }
  simpl. split; [done|]. split; [apply sublist_filter|].
  split.
  - intros i. rewrite list_elem_of_filter. tauto.
  - intros Hlt. induction (Account.transactions x) as [|i l IH]; [done|].
    rewrite filter_cons. by rewrite decide_False by lia.
Qed.

Lemma Account_account_statement_spec_witness :
  exists l,
    Account_account_statement 0 day day two_banks = Ret l two_banks
    /\ l = [Transaction.mk 100 day 0 0 true].
Proof.
  destruct (Account_account_statement_spec two_banks 0
              (Account.mk 100 0 0 [Transaction.mk 100 day 0 0 true]
                 "EE100000000000000001") day day eq_refl)
    as (l & Hr & Hl & _).
  exists l. split; [exact Hr|]. rewrite Hl. reflexivity.
Defined.

Lemma credit_loop_nonpos self from_date to_date l : forall counter,
  fold_left (credit_step self from_date to_date) l counter <= counter.
Proof.
  induction l as [|i l IH]; intros counter; simpl; [lia|].
  etrans; [apply IH|]. unfold credit_step.
  repeat case_match; lia.
Qed.

Lemma debit_loop_nonneg self from_date to_date l : forall counter,
  Forall tx_ok l ->
  counter <= fold_left (debit_step self from_date to_date) l counter.
Proof.
  induction l as [|i l IH]; intros counter Hok; simpl; [lia|].
  apply Forall_cons in Hok as [Hi Hl].
  etrans; [|apply (IH _ Hl)]. unfold debit_step, tx_ok in *.
  destruct (in_period from_date to_date i); [|lia].
  destruct (Transaction.is_from_atm i).
  - rewrite andb_true_r, andb_false_r, orb_false_r.
    destruct (Z.ltb_spec 0 (Transaction.amount i)); lia.
  - specialize (Hi eq_refl). case_match; lia.
Qed.

(** X5.  The credit turnover of an account is never positive, whatever its
    history and the period. *)
Theorem credit_turnover_nonpos h self x from_date to_date :
  accounts h !! self = Some x ->
  exists c,
    Account_get_credit_turnover self from_date to_date h = Ret c h /\ c <= 0.
Proof.
  intros E. eexists. split.
  - unfold Account_get_credit_turnover. unfold_m. by rewrite E.
  - apply credit_loop_nonpos.
Qed.

Lemma credit_turnover_nonpos_witness :
  exists c, Account_get_credit_turnover 0 day day two_banks = Ret c two_banks
            /\ c <= 0.
Proof.
  exact (credit_turnover_nonpos two_banks 0
           (Account.mk 100 0 0 [Transaction.mk 100 day 0 0 true]
              "EE100000000000000001") day day eq_refl).
Defined.

(** X6.  On every history written by [deposit], [withdraw] and [transfer]
    the debit turnover is not negative, so that the net turnover lies
    between the credit turnover and the debit turnover. *)
Theorem debit_turnover_nonneg h0 cs h self x from_date to_date :
  heap_wf h0 ->
  histories_ok h0 ->
  Forall (call_in h0) cs ->
  run cs h0 = Some h ->
  accounts h !! self = Some x ->
  exists d c n,
    Account_get_debit_turnover self from_date to_date h = Ret d h
    /\ Account_get_credit_turnover self from_date to_date h = Ret c h
    /\ Account_get_net_turnover self from_date to_date h = Ret n h
    /\ 0 <= d /\ c <= n <= d.
Proof.
  intros Hwf Hok Hin Hrun E.
  destruct (run_inv cs h0 Hwf Hin) as (h' & E' & _ & _ & _ & Hh).
  rewrite Hrun in E'. injection E' as <-.
  pose proof (Forall_lookup_1 _ _ _ _ (Hh Hok) E) as Hx. simpl in Hx.
  pose proof (debit_loop_nonneg self from_date to_date _ 0 Hx) as Hd.
  pose proof (credit_loop_nonpos self from_date to_date
                (Account.transactions x) 0) as Hc.
  do 3 eexists. split; [|split; [|split]].
  - unfold Account_get_debit_turnover. unfold_m. by rewrite E.
  - unfold Account_get_credit_turnover. unfold_m. by rewrite E.
  - by apply net_turnover_eq.
  - lia.
Qed.

Lemma debit_turnover_nonneg_witness :
  exists h d c n,
    run [Deposit 0 100 true day; Withdraw 0 30 true day] new_customer = Some h
    /\ Account_get_debit_turnover 0 day day h = Ret d h
    /\ Account_get_credit_turnover 0 day day h = Ret c h
    /\ Account_get_net_turnover 0 day day h = Ret n h
    /\ 0 <= d /\ c <= n <= d.
Proof.
  exists (heap_of (Account_withdraw 0 30 true day
                     (heap_of (Account_deposit 0 100 true day new_customer)))).
  destruct (debit_turnover_nonneg new_customer
              [Deposit 0 100 true day; Withdraw 0 30 true day]
              (heap_of (Account_withdraw 0 30 true day
                          (heap_of (Account_deposit 0 100 true day
                                      new_customer)))) 0
              (Account.mk 70 0 0
                 [Transaction.mk 100 day 0 0 true;
                  Transaction.mk (-30) day 0 0 true]
                 "EE100000000000000001") day day)
    as (d & c & n & H).
  - repeat constructor.
  - repeat constructor.
  - repeat constructor; simpl; lia.
  - reflexivity.
  - reflexivity.
  - exists d, c, n. split; [reflexivity | exact H].
Defined.

(** ** Removing customers *)

Lemma list_remove_not_in p l : p ∉ l -> list_remove p l = l.
Proof.
  induction l as [|i l IH]; intros Hp; [done|]. simpl.
  apply not_elem_of_cons in Hp as [Hne Hp].
  destruct (Nat.eqb_spec i p); [congruence|]. by rewrite IH.
Qed.

Lemma list_remove_snoc p l : p ∉ l -> list_remove p (l ++ [p]) = l.
Proof.
  induction l as [|i l IH]; intros Hp; simpl.
  - by rewrite Nat.eqb_refl.
  - apply not_elem_of_cons in Hp as [Hne Hp].
    destruct (Nat.eqb_spec i p); [congruence|]. by rewrite IH.
Qed.

Lemma list_remove_sublist p l : list_remove p l `sublist_of` l.
Proof.
  induction l as [|i l IH]; [done|]. simpl.
  destruct (i =? p)%nat; [by apply sublist_cons | by apply sublist_skip].
Qed.

Lemma list_remove_length p l :
  p ∈ l -> S (length (list_remove p l)) = length l.
Proof.
  induction l as [|i l IH]; intros Hp; [by apply elem_of_nil in Hp|]. simpl.
  destruct (Nat.eqb_spec i p) as [->|Hne]; [done|].
  apply elem_of_cons in Hp as [->|Hp]; [done|]. simpl. by rewrite IH.
Qed.

Lemma list_remove_other p q l : q <> p -> q ∈ list_remove p l <-> q ∈ l.
Proof.
  intros Hne. induction l as [|i l IH]; [done|]. simpl.
  destruct (Nat.eqb_spec i p) as [->|Hip].
  - rewrite elem_of_cons. split; [by right | intros [?|?]; done].
  - rewrite !elem_of_cons, IH. done.
Qed.

Lemma list_remove_NoDup p l : NoDup l -> p ∉ list_remove p l.
Proof.
  induction 1 as [|i l Hi Hnd IH]; simpl; [apply not_elem_of_nil|].
  destruct (Nat.eqb_spec i p) as [->|Hip]; [done|].
  apply not_elem_of_cons. split; [congruence | done].
Qed.

(** [list.remove] takes out the first occurrence and nothing else. *)
Lemma list_remove_first p l :
  p ∈ l ->
  exists l1 l2, l = l1 ++ p :: l2 /\ (p ∉ l1) /\ list_remove p l = l1 ++ l2.
Proof.
  induction l as [|i l IH]; intros Hp; [by apply elem_of_nil in Hp|].
  simpl. destruct (Nat.eqb_spec i p) as [->|Hne].
  - exists [], l. split; [done|]. split; [apply not_elem_of_nil | done].
  - apply elem_of_cons in Hp as [->|Hp]; [done|].
    destruct (IH Hp) as (l1 & l2 & -> & Hn & ->).
    exists (i :: l1), l2. split; [done|]. split; [|done].
    apply not_elem_of_cons. split; [congruence | done].
Qed.

Example list_remove_first_occurrence :
  list_remove 0 [0; 1; 0]%nat = [1; 0]%nat
  /\ list_remove 1 [1; 1; 0]%nat = [1; 0]%nat
  /\ list_remove 2 [0; 1; 0]%nat = [0; 1; 0]%nat.
Proof. repeat split; reflexivity. Qed.

Lemma Bank_remove_customer_eq h self person bk x :
  banks h !! self = Some bk ->
  persons h !! person = Some x ->
  Bank_remove_customer self person h
  = if bool_decide (person ∈ Bank.customers bk)
    then Ret true
           (mkHeap (<[person := with_bank_account None x]> (persons h))
              (<[self := with_customers
                           (list_remove person (Bank.customers bk)) bk]>
                 (banks h))
              (accounts h))
    else Ret false h.
Proof.
  intros Eb Ep. unfold Bank_remove_customer. unfold_m.
  rewrite Eb. destruct (bool_decide (person ∈ Bank.customers bk)); simpl; [|done].
  rewrite Ep. simpl. by rewrite Eb.
Qed.

(** X7.  [Bank.remove_customer(person)] returns [False] and changes nothing
    when the person is not in the list of customers of the bank.  Otherwise
    it returns [True], [person.bank_account] is [None], and the first
    occurrence of the person is taken out of the customers: the customers
    were [l1 ++ person :: l2] with the person not in [l1], and they are
    [l1 ++ l2] afterwards, so one fewer and otherwise the same, in the same
    order, later occurrences of the person included; the accounts of the
    store, with their balances and histories, and the transactions of the
    bank are as before. *)
Theorem Bank_remove_customer_spec h self person bk x :
  banks h !! self = Some bk ->
  persons h !! person = Some x ->
  let res := Bank_remove_customer self person h in
  (person ∉ Bank.customers bk -> res = Ret false h)
  /\ (person ∈ Bank.customers bk ->
      exists h' bk',
        res = Ret true h'
        /\ accounts h' = accounts h
        /\ persons h' !! person
           = Some (Person.mk (Person.first_name x) (Person.last_name x)
                     (Person._age x) None)
        /\ (forall p, p <> person -> persons h' !! p = persons h !! p)
        /\ banks h' !! self = Some bk'
        /\ Bank.name bk' = Bank.name bk
        /\ Bank.transactions bk' = Bank.transactions bk
        /\ (exists l1 l2,
              Bank.customers bk = l1 ++ person :: l2
              /\ (person ∉ l1)
              /\ Bank.customers bk' = l1 ++ l2)
        /\ Bank.customers bk' `sublist_of` Bank.customers bk
        /\ S (length (Bank.customers bk')) = length (Bank.customers bk)
        /\ (forall q, q <> person ->
              q ∈ Bank.customers bk' <-> q ∈ Bank.customers bk)
        /\ (forall b, b <> self -> banks h' !! b = banks h !! b)).
Proof.
  intros Eb Ep res. subst res.
  rewrite (Bank_remove_customer_eq _ _ _ _ _ Eb Ep).
  assert (Hlb : (self < length (banks h))%nat) by (by eapply lookup_lt_Some).
  assert (Hlp : (person < length (persons h))%nat) by (by eapply lookup_lt_Some).
  case_bool_decide as Hin; (split; [done|]); [|done].
  intros _. do 2 eexists. split; [done|]. simpl.
  split; [done|]. split; [by apply list_lookup_insert_eq|].
  split; [intros p Hp; by apply list_lookup_insert_ne|].
  split; [by apply list_lookup_insert_eq|]. simpl.
  split; [done|]. split; [done|].
  split; [by apply list_remove_first|].
  split; [apply list_remove_sublist|].
  split; [by apply list_remove_length|].
  split; [intros q Hq; by apply list_remove_other|].
  intros b Hb. by apply list_lookup_insert_ne.
Qed.

Lemma Bank_remove_customer_spec_witness :
  exists h',
    Bank_remove_customer 0 0 one_customer = Ret true h'
    /\ accounts h' = accounts one_customer.
Proof.
  destruct (Bank_remove_customer_spec one_customer 0 0
              (Bank.mk "Swed" [0%nat] [Transaction.mk 100 day 0 0 true])
              (Person.mk "Anna" "Tamm" 30 (Some 0%nat))
              eq_refl eq_refl) as (_ & H).
  destruct H as (h' & bk' & Hr & Ha & _).
  - simpl. apply (bool_decide_unpack (0%nat ∈ [0%nat])). vm_compute. exact I.
  - exists h'. split; [exact Hr | exact Ha].
Defined.

(** X8.  When the list of customers of the bank has no duplicates, a removed
    person is no longer a customer, the list still has no duplicates, and
    removing the person again returns [False] and changes nothing. *)
Theorem Bank_remove_customer_twice h self person bk x :
  banks h !! self = Some bk ->
  persons h !! person = Some x ->
  person ∈ Bank.customers bk ->
  NoDup (Bank.customers bk) ->
  exists h' bk',
    Bank_remove_customer self person h = Ret true h'
    /\ banks h' !! self = Some bk'
    /\ (person ∉ Bank.customers bk')
    /\ NoDup (Bank.customers bk')
    /\ Bank_remove_customer self person h' = Ret false h'.
Proof.
  intros Eb Ep Hin Hnd.
  rewrite (Bank_remove_customer_eq _ _ _ _ _ Eb Ep).
  rewrite bool_decide_eq_true_2 by done.
  assert (Hlb : (self < length (banks h))%nat) by (by eapply lookup_lt_Some).
  assert (Hlp : (person < length (persons h))%nat) by (by eapply lookup_lt_Some).
  do 2 eexists. split; [done|]. simpl.
  split; [by apply list_lookup_insert_eq|]. simpl.
  split; [by apply list_remove_NoDup|].
  split; [apply (sublist_NoDup _ _ Hnd), list_remove_sublist|].
  erewrite Bank_remove_customer_eq;
    [| simpl; by apply list_lookup_insert_eq
     | simpl; by apply list_lookup_insert_eq].
  simpl. rewrite bool_decide_eq_false_2; [done|]. by apply list_remove_NoDup.
Qed.

Lemma Bank_remove_customer_twice_witness :
  exists h',
    Bank_remove_customer 0 0 one_customer = Ret true h'
    /\ Bank_remove_customer 0 0 h' = Ret false h'.
Proof.
  destruct (Bank_remove_customer_twice one_customer 0 0
              (Bank.mk "Swed" [0%nat] [Transaction.mk 100 day 0 0 true])
              (Person.mk "Anna" "Tamm" 30 (Some 0%nat))
              eq_refl eq_refl) as (h' & bk' & Hr & _ & _ & _ & Hr').
  - simpl. apply (bool_decide_unpack (0%nat ∈ [0%nat])). vm_compute. exact I.
  - simpl. apply (bool_decide_unpack (NoDup [0%nat])). vm_compute. exact I.
  - exists h'. split; [exact Hr | exact Hr'].
Defined.

(** X9.  Adding a person who is not a customer of the bank and removing the
    person again leaves every bank as it was, but not the rest of the store:
    the account made by [add_customer] is still there, and
    [person.bank_account] is [None], whatever it was before the two calls. *)
Theorem add_then_remove_customer h self person rnd bk x :
  banks h !! self = Some bk ->
  persons h !! person = Some x ->
  person ∉ Bank.customers bk ->
  exists h',
    (Bank_add_customer self person rnd ;; Bank_remove_customer self person) h
    = Ret true h'
    /\ banks h' = banks h
    /\ accounts h'
       = accounts h ++ [Account.mk 0 person self [] ("EE" +:+ pretty rnd)]
    /\ persons h' = <[person := with_bank_account None x]> (persons h).
Proof.
  intros Eb Ep Hin.
  assert (Hlb : (self < length (banks h))%nat) by (by eapply lookup_lt_Some).
  assert (Hlp : (person < length (persons h))%nat) by (by eapply lookup_lt_Some).
  unfold bind at 1.
  rewrite (Bank_add_customer_eq _ _ _ rnd _ _ Eb Ep).
  rewrite bool_decide_eq_false_2 by done.
  erewrite Bank_remove_customer_eq;
    [| simpl; by apply list_lookup_insert_eq
     | simpl; by apply list_lookup_insert_eq].
  simpl. rewrite bool_decide_eq_true_2
    by (apply elem_of_app; right; by apply list_elem_of_singleton).
  eexists. split; [done|]. simpl.
  split; [|split; [done|]].
  - rewrite list_insert_insert_eq. unfold with_customers. simpl.
    rewrite list_remove_snoc by done.
    apply list_insert_id. by destruct bk.
  - by rewrite list_insert_insert_eq.
Qed.

Lemma add_then_remove_customer_witness :
  exists h',
    (Bank_add_customer 1 0 100000000000000002 ;; Bank_remove_customer 1 0)
      one_customer = Ret true h'
    /\ banks h' = banks one_customer
    /\ Person.bank_account <$> persons h' !! 0%nat = Some None.
Proof.
  destruct (add_then_remove_customer one_customer 1 0 100000000000000002
              (Bank.mk "SEB" [] [])
              (Person.mk "Anna" "Tamm" 30 (Some 0%nat))
              eq_refl eq_refl) as (h' & Hr & Hb & _ & Hp).
  - simpl. apply (bool_decide_unpack (0%nat ∉ [])). vm_compute. exact I.
  - exists h'. split; [exact Hr|]. split; [exact Hb|].
    rewrite Hp. reflexivity.
Defined.

(** X10.  A customer of one bank who is added by a second bank and then
    removed by the first is left without an account: the person is still a
    customer of the second bank, [person.bank_account] is [None], and
    [add_customer] of the second bank returns [False] without making a new
    account. *)
Theorem customer_left_without_account h b1 b2 person rnd rnd' bk1 bk2 x :
  b1 <> b2 ->
  banks h !! b1 = Some bk1 ->
  banks h !! b2 = Some bk2 ->
  persons h !! person = Some x ->
  person ∈ Bank.customers bk1 ->
  person ∉ Bank.customers bk2 ->
  exists h' bk2',
    (Bank_add_customer b2 person rnd ;;
     Bank_remove_customer b1 person ;;
     Bank_add_customer b2 person rnd') h = Ret false h'
    /\ banks h' !! b2 = Some bk2'
    /\ person ∈ Bank.customers bk2'
    /\ Person.bank_account <$> persons h' !! person = Some None
    /\ length (accounts h') = S (length (accounts h)).
Proof.
  intros Hne Eb1 Eb2 Ep Hin1 Hin2.
  assert (Hl1 : (b1 < length (banks h))%nat) by (by eapply lookup_lt_Some).
  assert (Hl2 : (b2 < length (banks h))%nat) by (by eapply lookup_lt_Some).
  assert (Hlp : (person < length (persons h))%nat) by (by eapply lookup_lt_Some).
  unfold bind at 1.
  rewrite (Bank_add_customer_eq _ _ _ rnd _ _ Eb2 Ep).
  rewrite bool_decide_eq_false_2 by done.
  unfold bind at 1.
  erewrite Bank_remove_customer_eq;
    [| simpl; rewrite list_lookup_insert_ne by done; exact Eb1
     | simpl; by apply list_lookup_insert_eq].
  rewrite bool_decide_eq_true_2 by done.
  erewrite Bank_add_customer_eq;
    [| simpl; rewrite list_lookup_insert_ne by done;
       by apply list_lookup_insert_eq
     | simpl; apply list_lookup_insert_eq; by rewrite length_insert].
  simpl. rewrite bool_decide_eq_true_2
    by (apply elem_of_app; right; by apply list_elem_of_singleton).
  do 2 eexists. split; [done|]. simpl.
  split; [rewrite list_lookup_insert_ne by done;
          by apply list_lookup_insert_eq|].
  simpl. split; [apply elem_of_app; right; by apply list_elem_of_singleton|].
  split.
  - rewrite list_lookup_insert_eq by (by rewrite length_insert). done.
  - rewrite length_app. simpl. lia.
Qed.

Lemma customer_left_without_account_witness :
  exists h',
    (Bank_add_customer 1 0 100000000000000002 ;;
     Bank_remove_customer 0 0 ;;
     Bank_add_customer 1 0 100000000000000003) one_customer = Ret false h'
    /\ Person.bank_account <$> persons h' !! 0%nat = Some None.
Proof.
  destruct (customer_left_without_account one_customer 0 1 0
              100000000000000002 100000000000000003
              (Bank.mk "Swed" [0%nat] [Transaction.mk 100 day 0 0 true])
              (Bank.mk "SEB" [] [])
              (Person.mk "Anna" "Tamm" 30 (Some 0%nat)))
    as (h' & bk2' & Hr & _ & _ & Hp & _).
  - lia.
  - reflexivity.
  - reflexivity.
  - reflexivity.
  - simpl. apply (bool_decide_unpack (0%nat ∈ [0%nat])). vm_compute. exact I.
  - simpl. apply (bool_decide_unpack (0%nat ∉ [])). vm_compute. exact I.
  - exists h'. split; [exact Hr | exact Hp].
Defined.

(** ** What the calls that move money leave alone *)

Lemma exec_step c h :
  heap_wf h ->
  call_in h c ->
  exists h', exec c h = Some h' /\ money_step h c h'.
Proof.
  intros Hwf Hin. destruct c as [a amount atm today|a amount atm today
                                |a amount b today]; simpl in Hin |- *.
  - apply lookup_lt_is_Some_2 in Hin as [x Ex].
    pose proof (Forall_lookup_1 _ _ _ _ Hwf Ex) as Hb. simpl in Hb.
    apply lookup_lt_is_Some_2 in Hb as [bk Eb].
    destruct atm.
    + rewrite (deposit_atm_eq _ _ _ _ _ _ Ex Eb).
      destruct (amount <=? 0); simpl; eexists; (split; [done|]).
      * by apply step_refused.
      * by eapply step_atm.
    + rewrite (deposit_internal_eq _ _ _ _ _ Ex).
      destruct (amount <=? 0); simpl; eexists; (split; [done|]).
      * by apply step_refused.
      * by eapply step_internal.
  - apply lookup_lt_is_Some_2 in Hin as [x Ex].
    pose proof (Forall_lookup_1 _ _ _ _ Hwf Ex) as Hb. simpl in Hb.
    apply lookup_lt_is_Some_2 in Hb as [bk Eb].
    destruct atm.
    + rewrite (withdraw_atm_eq _ _ _ _ _ _ Ex Eb).
      destruct ((amount <=? 0) || (Account._balance x <? amount)); simpl;
        eexists; (split; [done|]).
      * by apply step_refused.
      * by eapply (step_atm _ _ _ a x bk (- amount) today).
    + rewrite (withdraw_internal_eq _ _ _ _ _ Ex).
      destruct ((amount <=? 0) || (Account._balance x <? amount)); simpl;
        eexists; (split; [done|]).
      * by apply step_refused.
      * by eapply step_internal.
  - destruct Hin as [Ha Hb].
    apply lookup_lt_is_Some_2 in Ha as [s Es].
    apply lookup_lt_is_Some_2 in Hb as [r Er].
    pose proof (Forall_lookup_1 _ _ _ _ Hwf Es) as Hbs. simpl in Hbs.
    pose proof (Forall_lookup_1 _ _ _ _ Hwf Er) as Hbr. simpl in Hbr.
    apply lookup_lt_is_Some_2 in Hbs as [bks Ebs].
    apply lookup_lt_is_Some_2 in Hbr as [bkr Ebr].
    rewrite (transfer_eq _ _ _ amount today _ _ _ _ Es Er Ebs Ebr). simpl.
    destruct (Nat.eqb_spec b a) as [Hba|Hba]; simpl;
      [eexists; split; [done|]; by apply step_refused|].
    assert (Hab : a <> b) by (intros ->; by apply Hba).
    destruct (Nat.eqb_spec (Account.bank s) (Account.bank r)) as [Hbk|Hbk].
    + destruct (Z.leb_spec amount 0); simpl;
        [eexists; split; [done|]; by apply step_refused|].
      destruct (Account._balance s <? amount); simpl;
        eexists; (split; [done|]); [by apply step_refused|].
      eapply (step_transfer _ _ _ a b s r bks bkr amount 0 today); try done.
      * by rewrite (proj2 (Nat.eqb_eq _ _) Hbk).
      * rewrite Z.add_0_r. f_equal.
        rewrite <- Hbk. by rewrite list_insert_insert_eq.
    + destruct (Z.leb_spec (amount + 5) 0); simpl;
        [eexists; split; [done|]; by apply step_refused|].
      destruct (Account._balance s <? amount + 5); simpl;
        [eexists; split; [done|]; by apply step_refused|].
      destruct (Z.leb_spec amount 0); simpl; eexists; (split; [done|]).
      * eapply (step_partial _ _ _ a s r bkr); try done. simpl. lia.
      * eapply (step_transfer _ _ _ a b s r bks bkr amount 5 today); try done.
        by rewrite (proj2 (Nat.eqb_neq _ _) Hbk).
Qed.

Lemma account_grows_refl x : account_grows x x.
Proof. by repeat split. Qed.

Lemma bank_grows_refl x : bank_grows x x.
Proof. by repeat split. Qed.

Lemma account_grows_trans x y z :
  account_grows x y -> account_grows y z -> account_grows x z.
Proof.
  intros (? & ? & ? & ?) (? & ? & ? & ?).
  repeat split; try congruence. by etrans.
Qed.

Lemma bank_grows_trans x y z :
  bank_grows x y -> bank_grows y z -> bank_grows x z.
Proof.
  intros (? & ? & ?) (? & ? & ?). repeat split; try congruence. by etrans.
Qed.

Lemma Forall2_diag {A} (R : A -> A -> Prop) (l : list A) :
  (forall x, R x x) -> Forall2 R l l.
Proof. intros HR. induction l; constructor; auto. Qed.

Lemma Forall2_insert_diag {A} (R : A -> A -> Prop) (l : list A) i x y :
  (forall z, R z z) -> l !! i = Some x -> R x y -> Forall2 R l (<[i := y]> l).
Proof.
  intros HR E Hxy. rewrite <- (list_insert_id l i x E) at 1.
  apply Forall2_insert; [by apply Forall2_diag | done].
Qed.

Lemma heap_grows_refl h : heap_grows h h.
Proof.
  split; [done|].
  split; apply Forall2_diag;
    [apply account_grows_refl | apply bank_grows_refl].
Qed.

Lemma heap_grows_trans h1 h2 h3 :
  heap_grows h1 h2 -> heap_grows h2 h3 -> heap_grows h1 h3.
Proof.
  intros (Hp & Ha & Hb) (Hp' & Ha' & Hb').
  split; [congruence|]. split.
  - eapply Forall2_trans; [|exact Ha|exact Ha'].
    apply account_grows_trans.
  - eapply Forall2_trans; [|exact Hb|exact Hb'].
    apply bank_grows_trans.
Qed.

Lemma money_step_grows h c h' : money_step h c h' -> heap_grows h h'.
Proof.
  destruct 1 as [->|a x v _ Ex ->|a x bk v today Ex Eb ->
                |a b s r bks bkr amount fee today Hab Es Er Ebs Ebr _ _ ->
                |a s r bkr v t _ Es Ebr ->].
  - apply heap_grows_refl.
  - split; [done|]. split; [|apply Forall2_diag, bank_grows_refl]. simpl.
    eapply Forall2_insert_diag; [apply account_grows_refl | exact Ex |].
    by repeat split.
  - split; [done|]. split; simpl.
    + eapply Forall2_insert_diag; [apply account_grows_refl | exact Ex |].
      repeat split. simpl. by apply prefix_app_r.
    + eapply Forall2_insert_diag; [apply bank_grows_refl | exact Eb |].
      repeat split. simpl. by apply prefix_app_r.
  - split; [done|]. split; simpl.
    + eapply Forall2_trans
        with (k := <[b := credited amount (transfer_tx a b amount today) r]>
                     (accounts h));
        [apply account_grows_trans | |].
      * eapply Forall2_insert_diag; [apply account_grows_refl | exact Er |].
        repeat split. simpl. by apply prefix_app_r.
      * eapply Forall2_insert_diag; [apply account_grows_refl | |].
        { rewrite list_lookup_insert_ne by done. exact Es. }
        repeat split. simpl. by apply prefix_app_r.
    + destruct (decide (Account.bank s = Account.bank r)) as [Hb|Hb].
      * rewrite <- Hb, list_insert_insert_eq.
        eapply Forall2_insert_diag; [apply bank_grows_refl | exact Ebs |].
        repeat split. simpl. by apply prefix_app_r.
      * eapply Forall2_trans
          with (k := <[Account.bank r :=
                         recorded (transfer_tx a b amount today) bkr]>
                       (banks h));
          [apply bank_grows_trans | |].
        -- eapply Forall2_insert_diag; [apply bank_grows_refl | exact Ebr |].
           repeat split. simpl. by apply prefix_app_r.
        -- eapply Forall2_insert_diag; [apply bank_grows_refl | |].
           { rewrite list_lookup_insert_ne by done. exact Ebs. }
           repeat split. simpl. by apply prefix_app_r.
  - split; [done|]. split; simpl.
    + eapply Forall2_insert_diag; [apply account_grows_refl | exact Es |].
      by repeat split.
    + eapply Forall2_insert_diag; [apply bank_grows_refl | exact Ebr |].
      repeat split. simpl. by apply prefix_app_r.
Qed.

(** An invariant of the steps is an invariant of the runs. *)
Lemma run_steps (P : call -> Prop) (I : Heap -> Prop) :
  (forall h c h', heap_wf h -> P c -> money_step h c h' -> I h -> I h') ->
  forall cs h h',
    heap_wf h ->
    Forall (call_in h) cs ->
    Forall P cs ->
    run cs h = Some h' ->
    I h -> I h'.
Proof.
  intros Hstep. induction cs as [|c cs IH]; intros h h' Hwf Hin HP Hrun HI.
  - by injection Hrun as <-.
  - apply Forall_cons in Hin as [Hc Hcs]. apply Forall_cons in HP as [Pc Pcs].
    destruct (exec_step c h Hwf Hc) as (h1 & E1 & Hs).
    destruct (exec_inv c h Hwf Hc) as (h1' & E1' & Hwf1 & Hl1 & _).
    rewrite E1 in E1'. injection E1' as <-.
    simpl in Hrun. rewrite E1 in Hrun.
    apply (IH h1 h'); try done.
    + eapply Forall_impl; [exact Hcs|]. intros c'. by apply call_in_length.
    + exact (Hstep h c h1 Hwf Pc Hs HI).
Qed.

(** X11.  Calls of [deposit], [withdraw] and [transfer], returning or
    raising, leave the persons as they are, make or drop no account and no
    bank, never change the owner, the bank or the number of an account or
    the name or the customers of a bank, and only ever add transactions at
    the end of the histories of the accounts and of the lists of the banks:
    what was recorded stays, in the same order. *)
Theorem money_calls_only_append cs h h' :
  heap_wf h ->
  Forall (call_in h) cs ->
  run cs h = Some h' ->
  persons h' = persons h
  /\ length (accounts h') = length (accounts h)
  /\ length (banks h') = length (banks h)
  /\ (forall a x, accounts h !! a = Some x ->
        exists x',
          accounts h' !! a = Some x'
          /\ Account.person x' = Account.person x
          /\ Account.bank x' = Account.bank x
          /\ Account.number x' = Account.number x
          /\ Account.transactions x `prefix_of` Account.transactions x')
  /\ (forall b x, banks h !! b = Some x ->
        exists x',
          banks h' !! b = Some x'
          /\ Bank.name x' = Bank.name x
          /\ Bank.customers x' = Bank.customers x
          /\ Bank.transactions x `prefix_of` Bank.transactions x').
Proof.
  intros Hwf Hin Hrun.
  assert (Hg : heap_grows h h').
  { apply (run_steps (fun _ => True) (heap_grows h)) with cs h; try done.
    - intros h1 c h2 _ _ Hs Hg. eapply heap_grows_trans; [exact Hg|].
      by eapply money_step_grows.
    - by apply Forall_true.
    - apply heap_grows_refl. }
  destruct Hg as (Hp & Ha & Hb).
  split; [done|].
  split; [symmetry; by eapply Forall2_length|].
  split; [symmetry; by eapply Forall2_length|].
  split.
  - intros a x Ex.
    destruct (Forall2_lookup_l _ _ _ _ _ Ha Ex) as (x' & Ex' & Hx).
    by exists x'.
  - intros b x Ex.
    destruct (Forall2_lookup_l _ _ _ _ _ Hb Ex) as (x' & Ex' & Hx).
    by exists x'.
Qed.

Lemma money_calls_only_append_witness :
  exists h',
    run [Transfer 0 50 1 day; Transfer 0 0 1 day; Withdraw 1 20 true day]
        two_banks = Some h'
    /\ persons h' = persons two_banks
    /\ length (accounts h') = length (accounts two_banks).
Proof.
  exists (heap_of (Account_withdraw 1 20 true day
            (heap_of (Account_transfer 0 0 1 day
               (heap_of (Account_transfer 0 50 1 day two_banks)))))).
  split; [reflexivity|].
  destruct (money_calls_only_append
              [Transfer 0 50 1 day; Transfer 0 0 1 day; Withdraw 1 20 true day]
              two_banks
              (heap_of (Account_withdraw 1 20 true day
                 (heap_of (Account_transfer 0 0 1 day
                    (heap_of (Account_transfer 0 50 1 day two_banks)))))))
    as (Hp & Hl & _).
  - repeat constructor.
  - repeat constructor; simpl; lia.
  - reflexivity.
  - split; [exact Hp | exact Hl].
Defined.

(** ** The histories and the lists of the banks *)

Lemma has_histories_step h h' :
  bank_has_histories h ->
  Forall2 bank_grows (banks h) (banks h') ->
  (forall i y', accounts h' !! i = Some y' ->
     exists y, accounts h !! i = Some y
               /\ Account.bank y' = Account.bank y
               /\ forall t, t ∈ Account.transactions y' ->
                    t ∈ Account.transactions y
                    \/ exists bk', banks h' !! Account.bank y = Some bk'
                                   /\ t ∈ Bank.transactions bk') ->
  bank_has_histories h'.
Proof.
  intros HH Hb Hacc i y' Ey'.
  destruct (Hacc i y' Ey') as (y & Ey & Hbk & Ht).
  destruct (HH i y Ey) as (bk & Ebk & Hsub).
  destruct (Forall2_lookup_l _ _ _ _ _ Hb Ebk) as (bk' & Ebk' & _ & _ & Hpre).
  exists bk'. rewrite Hbk. split; [done|].
  intros t Hin. destruct (Ht t Hin) as [Hold | (bk'' & Ebk'' & Hnew)].
  - destruct Hpre as [k ->]. apply elem_of_app. left. by apply Hsub.
  - rewrite Ebk' in Ebk''. by injection Ebk'' as <-.
Qed.

Lemma money_step_has_histories h c h' :
  money_step h c h' -> bank_has_histories h -> bank_has_histories h'.
Proof.
  intros Hs HH.
  pose proof (money_step_grows _ _ _ Hs) as (_ & _ & Hg).
  apply (has_histories_step h h' HH Hg).
  destruct Hs as [->|a x v _ Ex ->|a x bk v today Ex Eb ->
                 |a b s r bks bkr amount fee today Hab Es Er Ebs Ebr _ _ ->
                 |a s r bkr v t _ Es Ebr ->]; simpl; intros i y' Ey'.
  - exists y'. split; [done|]. split; [done|]. by left.
  - apply list_lookup_insert_Some in Ey' as [(<- & <- & _)|[Hne Ey']].
    + exists x. split; [done|]. split; [done|]. by left.
    + exists y'. split; [done|]. split; [done|]. by left.
  - apply list_lookup_insert_Some in Ey' as [(<- & <- & _)|[Hne Ey']].
    + exists x. split; [done|]. split; [done|]. simpl. intros t Ht.
      apply elem_of_app in Ht as [Ht|Ht]; [by left|]. right.
      apply list_elem_of_singleton in Ht as ->.
      eexists. split.
      * apply list_lookup_insert_eq. by eapply lookup_lt_Some.
      * simpl. apply elem_of_app. right. by apply list_elem_of_singleton.
    + exists y'. split; [done|]. split; [done|]. by left.
  - apply list_lookup_insert_Some in Ey' as [(<- & <- & _)|[Hne Ey']].
    + exists s. split; [done|]. split; [done|]. simpl. intros t Ht.
      apply elem_of_app in Ht as [Ht|Ht]; [by left|]. right.
      apply list_elem_of_singleton in Ht as ->.
      eexists. split.
      * apply list_lookup_insert_eq. rewrite length_insert.
        by eapply lookup_lt_Some.
      * simpl. apply elem_of_app. right. by apply list_elem_of_singleton.
    + apply list_lookup_insert_Some in Ey' as [(<- & <- & _)|[Hne' Ey']].
      * exists r. split; [done|]. split; [done|]. simpl. intros t Ht.
        apply elem_of_app in Ht as [Ht|Ht]; [by left|]. right.
        apply list_elem_of_singleton in Ht as ->.
        destruct (decide (Account.bank s = Account.bank r)) as [Hb|Hb].
        -- eexists. split.
           ++ rewrite <- Hb. apply list_lookup_insert_eq.
              rewrite length_insert. by eapply lookup_lt_Some.
           ++ simpl. apply elem_of_app. right.
              by apply list_elem_of_singleton.
        -- eexists. split.
           ++ rewrite list_lookup_insert_ne by done.
              apply list_lookup_insert_eq. by eapply lookup_lt_Some.
           ++ simpl. apply elem_of_app. right.
              by apply list_elem_of_singleton.
      * exists y'. split; [done|]. split; [done|]. by left.
  - apply list_lookup_insert_Some in Ey' as [(<- & <- & _)|[Hne Ey']].
    + exists s. split; [done|]. split; [done|]. by left.
    + exists y'. split; [done|]. split; [done|]. by left.
Qed.

(** X12.  When every account starts with a history that its bank holds (an
    empty one, for an account just made), calls of [deposit], [withdraw] and
    [transfer] keep it so: every transaction in the history of an account
    is in the list of transactions of the bank of the account. *)
Theorem bank_holds_account_histories cs h h' :
  heap_wf h ->
  bank_has_histories h ->
  Forall (call_in h) cs ->
  run cs h = Some h' ->
  forall a x t,
    accounts h' !! a = Some x ->
    t ∈ Account.transactions x ->
    exists bk, banks h' !! Account.bank x = Some bk
               /\ t ∈ Bank.transactions bk.
Proof.
  intros Hwf HH Hin Hrun.
  assert (HH' : bank_has_histories h').
  { apply (run_steps (fun _ => True) bank_has_histories) with cs h; try done.
    - intros h1 c h2 _ _ Hs. by apply (money_step_has_histories h1 c h2).
    - by apply Forall_true. }
  intros a x t Ex Ht. destruct (HH' a x Ex) as (bk & Eb & Hsub).
  exists bk. split; [done|]. by apply Hsub.
Qed.

Lemma bank_holds_account_histories_witness :
  exists bk,
    banks (heap_of (Account_transfer 0 50 1 day two_banks)) !! 1%nat = Some bk
    /\ Transaction.mk 50 day 0 1 false ∈ Bank.transactions bk.
Proof.
  apply (bank_holds_account_histories [Transfer 0 50 1 day] two_banks
           (heap_of (Account_transfer 0 50 1 day two_banks))) with
    (a := 1%nat)
    (x := Account.mk 50 1 1 [Transaction.mk 50 day 0 1 false]
            "EE100000000000000002").
  - repeat constructor.
  - intros a x E. destruct a as [|[|a]]; simpl in E.
    + injection E as <-. eexists. split; [reflexivity|]. by intros t Ht.
    + injection E as <-. eexists. split; [reflexivity|]. by intros t Ht.
    + discriminate E.
  - repeat constructor; simpl; lia.
  - reflexivity.
  - reflexivity.
  - apply list_elem_of_here.
Defined.

(** ** Balances and turnover *)

Lemma debit_step_add self from_date to_date counter i :
  debit_step self from_date to_date counter i
  = counter + debit_step self from_date to_date 0 i.
Proof. unfold debit_step. repeat case_match; lia. Qed.

Lemma credit_step_add self from_date to_date counter i :
  credit_step self from_date to_date counter i
  = counter + credit_step self from_date to_date 0 i.
Proof. unfold credit_step. repeat case_match; lia. Qed.

Lemma in_period_own_date i :
  in_period (Transaction.date i) (Transaction.date i) i = true.
Proof. unfold in_period. by rewrite Z.leb_refl. Qed.

Lemma loops_history_net self from_date to_date l : forall c1 c2,
  Forall (fun i => in_period from_date to_date i = true) l ->
  fold_left (debit_step self from_date to_date) l c1
  + fold_left (credit_step self from_date to_date) l c2
  = c1 + c2 + history_net self l.
Proof.
  induction l as [|i l IH]; intros c1 c2 Hp; simpl; [lia|].
  apply Forall_cons in Hp as [Hi Hl]. rewrite (IH _ _ Hl).
  rewrite (debit_step_add _ _ _ c1), (credit_step_add _ _ _ c2).
  unfold history_net, net_of. simpl.
  unfold debit_step, credit_step. rewrite Hi, in_period_own_date. lia.
Qed.

Lemma sum_snoc {A} (g : A -> Z) (l : list A) (t : A) :
  foldr (fun i acc => g i + acc) 0 (l ++ [t])
  = foldr (fun i acc => g i + acc) 0 l + g t.
Proof. induction l as [|i l IH]; simpl; [lia|]. rewrite IH. lia. Qed.

Lemma bank_of_grows h h' a : heap_grows h h' -> bank_of h' a = bank_of h a.
Proof.
  intros (_ & Ha & _). unfold bank_of.
  destruct (accounts h !! a) as [x|] eqn:E.
  - destruct (Forall2_lookup_l _ _ _ _ _ Ha E) as (x' & -> & _ & Hb & _).
    simpl. by rewrite Hb.
  - apply lookup_ge_None in E. rewrite (Forall2_length _ _ _ Ha) in E.
    apply lookup_ge_None in E. by rewrite E.
Qed.

Lemma fees_paid_grows h h' a l :
  heap_grows h h' -> fees_paid h' a l = fees_paid h a l.
Proof.
  intros Hg. unfold fees_paid.
  induction l as [|i l IH]; simpl; [done|]. rewrite IH. f_equal.
  unfold fee_of. by rewrite !(bank_of_grows _ _ _ Hg).
Qed.

Lemma net_of_atm a v today :
  net_of a (Transaction.mk v today a a true) = v.
Proof.
  unfold net_of, debit_step, credit_step. rewrite in_period_own_date. simpl.
  rewrite !andb_false_r, !orb_false_r, andb_true_r.
  destruct (Z.ltb_spec 0 v); destruct (Z.ltb_spec v 0); lia.
Qed.

Lemma net_of_sent a b amount today :
  a <> b -> 0 < amount -> net_of a (transfer_tx a b amount today) = - amount.
Proof.
  intros Hab Hpos.
  unfold net_of, debit_step, credit_step. rewrite in_period_own_date. simpl.
  rewrite Nat.eqb_refl, (proj2 (Nat.eqb_neq a b) Hab). simpl.
  rewrite andb_false_r, orb_true_r. simpl. lia.
Qed.

Lemma net_of_received a b amount today :
  a <> b -> 0 < amount -> net_of b (transfer_tx a b amount today) = amount.
Proof.
  intros Hab Hpos.
  assert (Hba : (b =? a)%nat = false) by (apply Nat.eqb_neq; congruence).
  unfold net_of, debit_step, credit_step. rewrite in_period_own_date. simpl.
  rewrite Nat.eqb_refl, Hba. simpl.
  rewrite andb_false_r, orb_false_r. simpl.
  destruct (Z.ltb_spec amount 0); lia.
Qed.

Lemma money_step_ledger h c h' :
  ledger_call c -> money_step h c h' -> ledger_inv h -> ledger_inv h'.
Proof.
  intros Hc Hs HI.
  pose proof (money_step_grows _ _ _ Hs) as Hg.
  intros i y Ey. rewrite (fees_paid_grows _ _ _ _ Hg).
  destruct Hs as [->|a x v Hn Ex ->|a x bk v today Ex Eb ->
                 |a b s r bks bkr amount fee today Hab Es Er Ebs Ebr Hpos Hfee ->
                 |a s r bkr v t Hn Es Ebr ->]; simpl in Ey.
  - by apply HI.
  - done.
  - apply list_lookup_insert_Some in Ey as [(<- & <- & _)|[Hne Ey]];
      [|by apply HI].
    simpl. unfold history_net, fees_paid. rewrite !sum_snoc.
    rewrite net_of_atm. unfold fee_of at 2. simpl.
    pose proof (HI _ _ Ex) as Hx. unfold history_net, fees_paid in Hx. lia.
  - apply list_lookup_insert_Some in Ey as [(<- & <- & _)|[Hne Ey]].
    + simpl. unfold history_net, fees_paid. rewrite !sum_snoc.
      rewrite (net_of_sent _ _ _ _ Hab Hpos). unfold fee_of at 2. simpl.
      rewrite Nat.eqb_refl. unfold bank_of. rewrite Es, Er. simpl.
      pose proof (HI _ _ Es) as Hx. unfold history_net, fees_paid in Hx.
      destruct (Nat.eqb_spec (Account.bank s) (Account.bank r)) as [Hb|Hb].
      * rewrite bool_decide_eq_true_2 by congruence. simpl. lia.
      * rewrite bool_decide_eq_false_2 by congruence. simpl. lia.
    + apply list_lookup_insert_Some in Ey as [(<- & <- & _)|[Hne' Ey]];
        [|by apply HI].
      simpl. unfold history_net, fees_paid. rewrite !sum_snoc.
      rewrite (net_of_received _ _ _ _ Hab Hpos). unfold fee_of at 2. simpl.
      rewrite (proj2 (Nat.eqb_neq a b) Hab). simpl.
      pose proof (HI _ _ Er) as Hx. unfold history_net, fees_paid in Hx. lia.
  - done.
Qed.

Lemma new_accounts_ledger h : new_accounts h -> ledger_inv h.
Proof.
  intros Hn a x Ex.
  destruct (Forall_lookup_1 _ _ _ _ Hn Ex) as [-> ->]. done.
Qed.

(** X13.  With integer amounts (Python [int], where [+] and [-] are
    exact), the balance agrees with the history.  Start from accounts with
    balance 0 and an empty history and run deposits and withdrawals flagged
    as coming from an ATM and transfers of positive amounts, returning or
    raising.  Then the balance of every account is its net turnover over any
    period that holds all the dates of its history, less 5 for each
    transaction of the history that the account sent to an account of
    another bank; when there is no such transaction the balance is the net
    turnover. *)
Theorem balance_is_net_turnover h0 cs h self x from_date to_date :
  heap_wf h0 ->
  new_accounts h0 ->
  Forall (call_in h0) cs ->
  Forall ledger_call cs ->
  run cs h0 = Some h ->
  accounts h !! self = Some x ->
  (forall i, i ∈ Account.transactions x ->
             from_date <= Transaction.date i <= to_date) ->
  exists n,
    Account_get_net_turnover self from_date to_date h = Ret n h
    /\ Account._balance x = n - fees_paid h self (Account.transactions x)
    /\ ((forall i, i ∈ Account.transactions x -> fee_of h self i = 0) ->
        Account._balance x = n).
Proof.
  intros Hwf Hnew Hin Hled Hrun Ex Hdates.
  assert (HI : ledger_inv h).
  { apply (run_steps ledger_call ledger_inv) with cs h0; try done.
    - intros h1 c h2 _ Hc Hs. by apply (money_step_ledger h1 c h2).
    - by apply new_accounts_ledger. }
  eexists. split; [by apply net_turnover_eq|].
  rewrite loops_history_net.
  2:{ apply Forall_forall. intros i Hi. apply Hdates in Hi.
      unfold in_period.
      destruct (Z.leb_spec from_date (Transaction.date i));
        destruct (Z.leb_spec (Transaction.date i) to_date); simpl; lia. }
  pose proof (HI _ _ Ex) as Hx. split; [lia|].
  intros Hfree.
  assert (fees_paid h self (Account.transactions x) = 0) as Hz; [|lia].
  clear -Hfree. unfold fees_paid.
  induction (Account.transactions x) as [|i l IH]; simpl; [done|].
  rewrite (Hfree i) by apply list_elem_of_here.
  rewrite IH; [done|]. intros j Hj. apply Hfree. by apply list_elem_of_further.
Qed.

Lemma balance_is_net_turnover_witness :
  exists h n,
    run [Deposit 0 100 true day; Withdraw 0 30 true day] new_customer = Some h
    /\ Account_get_net_turnover 0 day day h = Ret n h
    /\ Account._balance <$> accounts h !! 0%nat = Some n.
Proof.
  destruct (balance_is_net_turnover new_customer
              [Deposit 0 100 true day; Withdraw 0 30 true day]
              (heap_of (Account_withdraw 0 30 true day
                          (heap_of (Account_deposit 0 100 true day
                                      new_customer)))) 0
              (Account.mk 70 0 0
                 [Transaction.mk 100 day 0 0 true;
                  Transaction.mk (-30) day 0 0 true]
                 "EE100000000000000001") day day)
    as (n & Hn & _ & Hb).
  - repeat constructor.
  - repeat constructor.
  - repeat constructor; simpl; lia.
  - repeat constructor.
  - reflexivity.
  - reflexivity.
  - simpl. intros i Hi.
    apply elem_of_cons in Hi as [->|Hi]; [simpl; lia|].
    apply list_elem_of_singleton in Hi as ->. simpl. lia.
  - exists (heap_of (Account_withdraw 0 30 true day
                       (heap_of (Account_deposit 0 100 true day
                                   new_customer)))), n.
    split; [reflexivity|]. split; [exact Hn|].
    simpl in Hb. rewrite <- Hb; [reflexivity|].
    intros i Hi.
    apply elem_of_cons in Hi as [->|Hi]; [reflexivity|].
    apply list_elem_of_singleton in Hi as ->. reflexivity.
Defined.

(** * The functions of the exam *)

Example positive_or_not_docstring :
  Exam.positive_or_not [9; 5; 0; 6; -5; -1] true = [9; 5; 6]
  /\ Exam.positive_or_not [3; 4; -2; 1; -78; 0] false = [-2; -78; 0].
Proof. split; reflexivity. Qed.

Lemma filter_loop (f : Z -> bool) (P : Z -> Prop) `{!forall a, Decision (P a)}
    (nums : list Z) :
  (forall a, f a = true <-> P a) ->
  forall acc,
    fold_left (fun list_list a => if f a then list_list ++ [a] else list_list)
              nums acc
    = acc ++ filter P nums.
Proof.
  intros Hf. induction nums as [|a nums IH]; intros acc; simpl.
  - by rewrite app_nil_r.
  - rewrite IH, filter_cons. destruct (f a) eqn:Ha.
    + rewrite decide_True by (by apply Hf). by rewrite <- app_assoc.
    + rewrite decide_False; [done|]. rewrite <- Hf. congruence.
Qed.

Lemma positive_or_not_filter nums :
  Exam.positive_or_not nums true = filter (fun a => 0 < a) nums
  /\ Exam.positive_or_not nums false = filter (fun a => ~ 0 < a) nums.
Proof.
  unfold Exam.positive_or_not. split.
  - rewrite (filter_loop (fun a => 1 <=? a) (fun a => 0 < a)); [done|].
    intros a. destruct (Z.leb_spec 1 a); split; (done || lia).
  - rewrite (filter_loop (fun a => a <=? 0) (fun a => ~ 0 < a)); [done|].
    intros a. destruct (Z.leb_spec a 0); split; (done || lia).
Qed.

(** X14.  [positive_or_not(nums, True)] keeps the numbers greater than 0
    and [positive_or_not(nums, False)] the others, each in the order of
    [nums]: a number is in the result if and only if it is in [nums] with
    the sign asked for, and the two results together are [nums] up to the
    order, so their lengths add up to the length of [nums]. *)
Theorem positive_or_not_partition nums :
  (forall pos a,
     a ∈ Exam.positive_or_not nums pos
     <-> a ∈ nums /\ (if pos then 0 < a else a <= 0))
  /\ (forall pos, Exam.positive_or_not nums pos `sublist_of` nums)
  /\ Exam.positive_or_not nums true ++ Exam.positive_or_not nums false ≡ₚ nums
  /\ (length (Exam.positive_or_not nums true)
      + length (Exam.positive_or_not nums false) = length nums)%nat.
Proof.
  destruct (positive_or_not_filter nums) as [Ht Hf].
  assert (Hperm : Exam.positive_or_not nums true
                  ++ Exam.positive_or_not nums false ≡ₚ nums).
  { rewrite Ht, Hf. apply filter_app_complement. }
  split; [|split; [|split]].
  - intros [] a; [rewrite Ht | rewrite Hf]; rewrite list_elem_of_filter.
    + tauto.
    + split; intros [? ?]; split; (done || lia).
  - intros []; [rewrite Ht | rewrite Hf]; apply sublist_filter.
  - done.
  - rewrite <- length_app. by rewrite Hperm.
Qed.

(** X15.  Filtering twice with the same flag changes nothing more, and
    filtering the result with the other flag leaves nothing. *)
Theorem positive_or_not_twice nums pos :
  Exam.positive_or_not (Exam.positive_or_not nums pos) pos
  = Exam.positive_or_not nums pos
  /\ Exam.positive_or_not (Exam.positive_or_not nums pos) (negb pos) = [].
Proof.
  destruct (positive_or_not_filter nums) as [Ht Hf].
  destruct pos.
  - change (negb true) with false.
    destruct (positive_or_not_filter (Exam.positive_or_not nums true))
      as [Ht' Hf'].
    rewrite Ht', Hf', Ht. clear. split.
    + induction nums as [|a l IH]; [done|].
      rewrite filter_cons. case_decide; [|done].
      rewrite filter_cons, decide_True by done. by rewrite IH.
    + induction nums as [|a l IH]; [done|].
      rewrite filter_cons. case_decide; [|done].
      by rewrite filter_cons, decide_False by tauto.
  - change (negb false) with true.
    destruct (positive_or_not_filter (Exam.positive_or_not nums false))
      as [Ht' Hf'].
    rewrite Ht', Hf', Hf. clear. split.
    + induction nums as [|a l IH]; [done|].
      rewrite filter_cons. case_decide; [|done].
      rewrite filter_cons, decide_True by done. by rewrite IH.
    + induction nums as [|a l IH]; [done|].
      rewrite filter_cons. case_decide; [|done].
      by rewrite filter_cons, decide_False by tauto.
Qed.

Example sum_half_evens_docstring :
  Exam.sum_half_evens [2; 1; 2; 3; 4] = Some 6
  /\ Exam.sum_half_evens [2; 2; 0; 4] = Some 4
  /\ Exam.sum_half_evens [1; 3; 5; 8] = Some 8
  /\ Exam.sum_half_evens [2; 3; 5; 7; 8; 9; 10; 11] = Some 12.
Proof. repeat split; reflexivity. Qed.

Lemma double_loop_last (counter : list Z) : forall al0,
  fold_left (fun (_ : Z) (al : Z) => al + al) counter al0
  = match last counter with Some y => 2 * y | None => al0 end.
Proof.
  induction counter as [|x l IH]; intros al0; [done|].
  simpl fold_left. rewrite IH. destruct l as [|x' l]; simpl; [lia|].
  destruct (last (x' :: l)) eqn:E; [done|]. by apply last_None in E.
Qed.

(** The function as one expression over the even numbers of the list. *)
Lemma sum_half_evens_eq nums :
  let evens := filter (fun a => a mod 2 = 0) nums in
  let n := length evens in
  (((n mod 2 =? 0)%nat = false -> is_Some (evens !! (n / 2)%nat)))
  /\ Exam.sum_half_evens nums
     = Some ((match last (take (n / 2) evens) with
              | Some y => 2 * y
              | None => 0
              end)
             + (if (n mod 2 =? 0)%nat then 0
                else default 0 (evens !! (n / 2)%nat))).
Proof.
  intros evens n.
  assert (Hmid : (n mod 2 =? 0)%nat = false -> is_Some (evens !! (n / 2)%nat)).
  { intros Hodd. apply lookup_lt_is_Some_2. fold n.
    destruct n as [|n]; [done|]. apply Nat.div_lt; lia. }
  split; [done|].
  unfold Exam.sum_half_evens.
  rewrite (filter_loop (fun a => a mod 2 =? 0) (fun a => a mod 2 = 0))
    by (intros a; apply Z.eqb_eq).
  simpl app. fold evens. fold n.
  unfold Exam.double_each. rewrite double_loop_last.
  assert (Hlen : length (take (n / 2) evens) = (n / 2)%nat).
  { rewrite length_take. fold n.
    apply Nat.min_l, Nat.Div0.div_le_upper_bound. lia. }
  rewrite Hlen. clear Hlen.
  set (k := (n / 2)%nat) in *.
  destruct (n mod 2 =? 0)%nat eqn:Hpar; cbn [negb].
  - destruct (Nat.leb_spec 1 k) as [Hh|Hh]; [by rewrite Z.add_0_r|].
    assert (k = 0)%nat as -> by lia. done.
  - destruct (Hmid eq_refl) as [a Ea]. rewrite Ea. cbn [default].
    destruct (Nat.leb_spec 1 k) as [Hh|Hh]; [done|].
    assert (k = 0)%nat as -> by lia. done.
Qed.

(** X16.  [sum_half_evens] never raises and is not a sum: with [evens] the
    even numbers of the list in their order and [n] their number, it returns
    twice the last of the first [n // 2] of them (0 when there is none),
    plus the one at index [n // 2] when [n] is odd.  So it is 0 for a list
    without even numbers and the even number itself when there is just
    one. *)
Theorem sum_half_evens_closed_form nums :
  let evens := filter (fun a => a mod 2 = 0) nums in
  let n := length evens in
  Exam.sum_half_evens nums
  = Some ((match last (take (n / 2) evens) with
           | Some y => 2 * y
           | None => 0
           end)
          + (if (n mod 2 =? 0)%nat then 0
             else default 0 (evens !! (n / 2)%nat)))
  /\ ((n mod 2 =? 0)%nat = false -> is_Some (evens !! (n / 2)%nat))
  /\ (evens = [] -> Exam.sum_half_evens nums = Some 0)
  /\ (forall e, evens = [e] -> Exam.sum_half_evens nums = Some e).
Proof.
  intros evens n. destruct (sum_half_evens_eq nums) as [Hmid Heq].
  fold evens in Hmid, Heq. fold n in Hmid, Heq.
  split; [exact Heq|]. split; [exact Hmid|]. split.
  - intros He. rewrite Heq. subst n. rewrite He. done.
  - intros e He. rewrite Heq. subst n. rewrite He. simpl. done.
Qed.

(** X17.  The result of [sum_half_evens] is always an even number, and it
    only depends on the even numbers of the list: the numbers that are not
    even can be taken out without changing it. *)
Theorem sum_half_evens_even nums :
  (exists v, Exam.sum_half_evens nums = Some v /\ v mod 2 = 0)
  /\ Exam.sum_half_evens (filter (fun a => a mod 2 = 0) nums)
     = Exam.sum_half_evens nums.
Proof.
  destruct (sum_half_evens_eq nums) as [Hmid Heq].
  destruct (sum_half_evens_eq (filter (fun a => a mod 2 = 0) nums))
    as [_ Heq'].
  cbv zeta in Heq, Heq', Hmid.
  assert (Hff : filter (fun a => a mod 2 = 0)
                  (filter (fun a => a mod 2 = 0) nums)
                = filter (fun a => a mod 2 = 0) nums).
  { clear. induction nums as [|a l IH]; [done|].
    rewrite filter_cons. case_decide; [|done].
    rewrite filter_cons, decide_True by done. by rewrite IH. }
  rewrite Hff in Heq'. split; [|by rewrite Heq, Heq'].
  eexists. split; [exact Heq|]. clear Heq Heq' Hff.
  set (evens := filter (fun a => a mod 2 = 0) nums) in *.
  assert (Hev : forall a, a ∈ evens -> a mod 2 = 0).
  { intros a Ha. by apply list_elem_of_filter in Ha as [? _]. }
  assert (H1 : match last (take (length evens / 2) evens) with
               | Some y => 2 * y
               | None => 0
               end mod 2 = 0).
  { destruct (last (take (length evens / 2) evens)) as [y|]; [|done].
    rewrite Z.mul_comm. apply Z.mod_mul. lia. }
  assert (H2 : (if (length evens mod 2 =? 0)%nat then 0
                else default 0 (evens !! (length evens / 2)%nat)) mod 2 = 0).
  { destruct (length evens mod 2 =? 0)%nat; [done|].
    destruct (Hmid eq_refl) as [a Ea]. rewrite Ea. cbn [default].
    apply Hev. by eapply list_elem_of_lookup_2. }
  rewrite Z.add_mod, H1, H2 by lia. done.
Qed.

(** ** [max_block] *)

Example max_block_main :
  Exam.max_block (String.list_ascii_of_string "hoopla") = 2%nat
  /\ Exam.max_block (String.list_ascii_of_string "abbCCCddBBBxx") = 3%nat
  /\ Exam.max_block (String.list_ascii_of_string "") = 0%nat.
Proof. repeat split; reflexivity. Qed.

Section max_block.
Context {char : Type} `{EqDecision char}.
Implicit Types (s : list char) (c : char).

Lemma str_count_le_length c s : (Exam.str_count c s <= length s)%nat.
Proof. induction s as [|x s IH]; simpl; [lia|]. case_decide; lia. Qed.

Lemma str_count_pos c s : c ∈ s <-> (0 < Exam.str_count c s)%nat.
Proof.
  induction s as [|x s IH]; simpl.
  - split; [by intros ?%elem_of_nil | lia].
  - rewrite elem_of_cons, IH. case_decide; subst; split; try lia; auto.
    intros [->|?]; done.
Qed.

Lemma str_count_perm c s s' :
  s ≡ₚ s' -> Exam.str_count c s = Exam.str_count c s'.
Proof.
  induction 1 as [|x l l' _ IH|x y l|l1 l2 l3 _ IH1 _ IH2]; simpl.
  - done.
  - by rewrite IH.
  - repeat case_decide; done.
  - congruence.
Qed.

Lemma max_block_loop s rest : forall counter,
  let r := fold_left (fun counter c =>
                        let count := Exam.str_count c s in
                        if (counter <=? count)%nat then count else counter)
                     rest counter in
  (counter <= r)%nat
  /\ (forall c, c ∈ rest -> (Exam.str_count c s <= r)%nat)
  /\ (r = counter \/ exists c, c ∈ rest /\ r = Exam.str_count c s).
Proof.
  induction rest as [|x rest IH]; intros counter; simpl.
  - split; [lia|]. split; [by intros c ?%elem_of_nil | by left].
  - destruct (Nat.leb_spec counter (Exam.str_count x s)) as [Hle|Hlt].
    + destruct (IH (Exam.str_count x s)) as (H1 & H2 & H3).
      cbv zeta in H1, H2, H3.
      split; [lia|]. split.
      * intros c Hc. apply elem_of_cons in Hc as [->|Hc]; [done | by apply H2].
      * right. destruct H3 as [->|(c & Hc & ->)].
        -- exists x. split; [apply list_elem_of_here | done].
        -- exists c. split; [by apply list_elem_of_further | done].
    + destruct (IH counter) as (H1 & H2 & H3).
      cbv zeta in H1, H2, H3.
      split; [done|]. split.
      * intros c Hc. apply elem_of_cons in Hc as [->|Hc]; [lia | by apply H2].
      * destruct H3 as [->|(c & Hc & ->)]; [by left|].
        right. exists c. split; [by apply list_elem_of_further | done].
Qed.

Lemma max_block_max s :
  (forall c, (Exam.str_count c s <= Exam.max_block s)%nat)
  /\ (s <> [] -> exists c, c ∈ s /\ Exam.max_block s = Exam.str_count c s)
  /\ (s = [] -> Exam.max_block s = 0%nat).
Proof.
  destruct s as [|x s]; [split; [|split]; try done; intros c; simpl; lia|].
  unfold Exam.max_block.
  change (1 <=? length (x :: s))%nat with true. cbv iota.
  destruct (max_block_loop (x :: s) (x :: s) 0) as (H1 & H2 & H3).
  split; [|split; [|done]].
  - intros c. destruct (decide (c ∈ x :: s)) as [Hc|Hc]; [by apply H2|].
    pose proof (str_count_pos c (x :: s)) as Hp.
    destruct (Exam.str_count c (x :: s)); [lia|].
    exfalso. apply Hc, Hp. lia.
  - intros _. destruct H3 as [Hz|H3]; [|done].
    exfalso. pose proof (H2 x (list_elem_of_here _ _)) as Hx.
    pose proof (proj1 (str_count_pos x (x :: s)) (list_elem_of_here _ _)).
    lia.
Qed.

End max_block.

(** X18.  [max_block(s)] is the greatest number of times one character
    occurs in [s], wherever its occurrences are: no character occurs more
    often, and when [s] is not empty some character of [s] occurs exactly
    that often.  It is 0 for the empty string only and never more than the
    length of [s]. *)
Theorem max_block_most_frequent {char} `{EqDecision char} (s : list char) :
  (forall c, (Exam.str_count c s <= Exam.max_block s)%nat)
  /\ (s <> [] -> exists c, c ∈ s /\ Exam.str_count c s = Exam.max_block s)
  /\ (Exam.max_block s = 0%nat <-> s = [])
  /\ (Exam.max_block s <= length s)%nat.
Proof.
  destruct (max_block_max s) as (Hle & Hex & Hnil).
  split; [done|]. split; [|split].
  - intros Hs. destruct (Hex Hs) as (c & Hc & Hm). by exists c.
  - split; [|done]. intros Hz. destruct s as [|x s]; [done|].
    pose proof (Hle x) as Hx.
    pose proof (proj1 (str_count_pos x (x :: s)) (list_elem_of_here _ _)).
    lia.
  - destruct s as [|x s]; [by rewrite Hnil|].
    destruct Hex as (c & _ & ->); [done|]. apply str_count_le_length.
Qed.

(** X19.  [max_block] does not look at the order of the characters: two
    strings with the same characters, each as many times, have the same
    result. *)
Theorem max_block_perm {char} `{EqDecision char} (s s' : list char) :
  s ≡ₚ s' -> Exam.max_block s = Exam.max_block s'.
Proof.
  intros Hp.
  destruct (max_block_max s) as (Hle & Hex & Hnil).
  destruct (max_block_max s') as (Hle' & Hex' & Hnil').
  destruct s as [|x s].
  { apply Permutation_nil_l in Hp. subst. done. }
  destruct s' as [|x' s'].
  { by apply Permutation_nil_r in Hp. }
  destruct Hex as (c & _ & Hc); [done|].
  destruct Hex' as (c' & _ & Hc'); [done|].
  pose proof (Hle c') as H1. pose proof (Hle' c) as H2.
  rewrite (str_count_perm c _ _ Hp) in Hc.
  rewrite (str_count_perm c' _ _ Hp) in H1.
  lia.
Qed.

Lemma max_block_perm_witness :
  Exam.max_block [1; 2; 1]%nat = Exam.max_block [1; 1; 2]%nat.
Proof.
  apply max_block_perm. apply perm_skip, perm_swap.
Defined.

(** ** The age of a person *)

(** X20.  The setter of [age] stores the value it is given in every case
    and changes nothing else in the store: it returns when the value is at
    least 1 and raises [PersonError] when the value is at most 0, and in
    both cases the age read afterwards is the value given. *)
Theorem Person_age_setter_spec h self x value :
  persons h !! self = Some x ->
  exists h',
    Person_age_setter self value h
    = (if value <=? 0 then Raise PersonError h' else Ret tt h')
    /\ Person_age self h' = Ret value h'
    /\ persons h' !! self
       = Some (Person.mk (Person.first_name x) (Person.last_name x) value
                 (Person.bank_account x))
    /\ (forall p, p <> self -> persons h' !! p = persons h !! p)
    /\ banks h' = banks h
    /\ accounts h' = accounts h.
Proof.
  intros E. rewrite (Person_age_setter_eq _ _ _ _ E).
  assert (Hl : (self < length (persons h))%nat) by (by eapply lookup_lt_Some).
  eexists. split; [done|]. simpl.
  split; [|split; [|split]].
  - unfold Person_age. unfold_m. by rewrite list_lookup_insert_eq.
  - by apply list_lookup_insert_eq.
  - intros p Hp. by apply list_lookup_insert_ne.
  - done.
Qed.

Lemma Person_age_setter_spec_witness :
  exists h',
    Person_age_setter 0 0 one_customer = Raise PersonError h'
    /\ Person_age 0 h' = Ret 0 h'.
Proof.
  destruct (Person_age_setter_spec one_customer 0
              (Person.mk "Anna" "Tamm" 30 (Some 0%nat)) 0 eq_refl)
    as (h' & Hr & Ha & _).
  exists h'. split; [exact Hr | exact Ha].
Defined.
